(** * ThumborUrlBuilder: a shallow embedding of [src/thumbor-url-builder.ts]

    The TypeScript class [ThumborUrlBuilder] accumulates image operations in
    private fields and renders them into a (possibly signed) Thumbor URL.

    Modelling conventions.
    - A JavaScript string is modelled by the sequence of bytes of its UTF-8
      encoding ([String.string]).  ['/'], ['+'] and every other ASCII
      character occupy one byte that never occurs inside a multi-byte
      sequence, so [charAt(0) === '/'], [substring(1, length)] and the two
      [replace] calls act on the bytes as they act on the characters.
    - A string holding an unpaired surrogate has no UTF-8 encoding.  It is
      modelled by its generalised encoding, in which the surrogate is the
      three bytes [ED], [A0]..[BF], [80]..[BF], a sequence that no UTF-8
      encoding contains.  The builder never joins two of its string
      arguments without an ASCII character in between, so concatenation
      acts on these bytes as on the characters.  The methods of module
      [ThumborUrlBuilder] give the digest of the bytes; they are the
      methods on strings that have a UTF-8 encoding.  Module [WithURIError]
      gives the signer and [buildUrl] on all strings: there
      [crypto.HmacSHA1] throws [URIError] on an unpaired surrogate.
    - A JavaScript [number] is modelled by [number] below: the integers (as
      [Z]), [NaN] and the two infinities.  An integer is rendered in plain
      decimal, as JavaScript renders the integers it represents exactly,
      those of magnitude at most 2^53; beyond that bound JavaScript rounds
      (2^64 prints as 18446744073709552000) and from 10^21 on it prints an
      exponent, which [number_toString] does not follow.  No theorem below
      depends on the digits of a number.
    - The object is a record [Builder]; methods live in a state-and-exception
      monad [M] over that record, [this] being the threaded state. *)

From Stdlib Require Import ZArith String Ascii List Bool Lia DecimalString.
Import ListNotations.

Local Open Scope string_scope.
Local Open Scope list_scope.
Local Open Scope Z_scope.

(** ** The [crypto-js] functions the builder calls

    [crypto-js] is a third-party dependency.  Its [HmacSHA1] and
    [enc.Base64.stringify] are modelled by the algorithms they implement:
    SHA-1 (FIPS 180-4), HMAC (RFC 2104) and Base64 with padding (RFC 4648,
    section 4).  A [WordArray] is modelled by its significant bytes. *)
Module CryptoJS.

Definition byte_of_ascii (c : ascii) : Z := Z.of_N (N_of_ascii c).

Fixpoint Utf8_parse (s : string) : list Z :=
  match s with
  | EmptyString => []
  | String c rest => byte_of_ascii c :: Utf8_parse rest
  end.

(** 32-bit words are integers in [[0, 2^32)]; every operation wraps. *)
Definition w32 (x : Z) : Z := x mod 4294967296.
Definition add32 (x y : Z) : Z := w32 (x + y).
Definition not32 (x : Z) : Z := Z.lxor x 4294967295.
Definition rotl (n x : Z) : Z :=
  w32 (Z.lor (Z.shiftl x n) (Z.shiftr x (32 - n))).

(** Message padding: a [0x80] byte, zeros up to 56 modulo 64, then the bit
    length as a 64-bit big-endian integer. *)
Definition be_bytes (n : nat) (x : Z) : list Z :=
  map (fun i => Z.land (Z.shiftr x (8 * Z.of_nat i)) 255) (rev (seq 0 n)).

Definition sha1_pad (msg : list Z) : list Z :=
  let len := Z.of_nat (length msg) in
  msg ++ [128] ++ repeat 0 (Z.to_nat ((55 - len) mod 64))
      ++ be_bytes 8 (8 * len).

Fixpoint chunks (n : nat) (l : list Z) : list (list Z) :=
  match n with
  | O => []
  | S n' => firstn 64 l :: chunks n' (skipn 64 l)
  end.

Fixpoint be_words (l : list Z) : list Z :=
  match l with
  | a :: b :: c :: d :: rest =>
      (Z.lor (Z.shiftl a 24) (Z.lor (Z.shiftl b 16) (Z.lor (Z.shiftl c 8) d)))
        :: be_words rest
  | _ => []
  end.

(** Message schedule, kept newest word first while it is extended. *)
Fixpoint extend (n : nat) (ws : list Z) : list Z :=
  match n with
  | O => ws
  | S n' =>
      let w := rotl 1 (Z.lxor (Z.lxor (nth 2 ws 0) (nth 7 ws 0))
                              (Z.lxor (nth 13 ws 0) (nth 15 ws 0))) in
      extend n' (w :: ws)
  end.

Definition schedule (block : list Z) : list Z :=
  rev (extend 64 (rev (be_words block))).

Definition state : Type := (Z * Z * Z * Z * Z)%type.

Definition round (t : nat) (w : Z) (s : state) : state :=
  let '(a, b, c, d, e) := s in
  let '(f, k) :=
    if (t <? 20)%nat then
      (Z.lor (Z.land b c) (Z.land (not32 b) d), 1518500249)
    else if (t <? 40)%nat then
      (Z.lxor (Z.lxor b c) d, 1859775393)
    else if (t <? 60)%nat then
      (Z.lor (Z.lor (Z.land b c) (Z.land b d)) (Z.land c d), 2400959708)
    else
      (Z.lxor (Z.lxor b c) d, 3395469782) in
  let temp := add32 (add32 (add32 (add32 (rotl 5 a) f) e) k) w in
  (temp, a, rotl 30 b, c, d).

Fixpoint rounds (t : nat) (ws : list Z) (s : state) : state :=
  match ws with
  | [] => s
  | w :: ws' => rounds (S t) ws' (round t w s)
  end.

Definition compress (h : state) (block : list Z) : state :=
  let '(h0, h1, h2, h3, h4) := h in
  let '(a, b, c, d, e) := rounds 0 (schedule block) h in
  (add32 h0 a, add32 h1 b, add32 h2 c, add32 h3 d, add32 h4 e).

Definition sha1_init : state :=
  (1732584193, 4023233417, 2562383102, 271733878, 3285377520).

Definition digest_bytes (h : state) : list Z :=
  let '(h0, h1, h2, h3, h4) := h in
  be_bytes 4 h0 ++ be_bytes 4 h1 ++ be_bytes 4 h2 ++ be_bytes 4 h3
    ++ be_bytes 4 h4.

Definition SHA1_bytes (msg : list Z) : list Z :=
  let padded := sha1_pad msg in
  digest_bytes
    (fold_left compress (chunks (length padded / 64) padded) sha1_init).

(** HMAC over SHA-1, block size 64 bytes. *)
Definition hmac_key (key : list Z) : list Z :=
  let k := if (64 <? length key)%nat then SHA1_bytes key else key in
  k ++ repeat 0 (64 - length k).

Definition HMAC_bytes (msg key : list Z) : list Z :=
  let k := hmac_key key in
  let ipad := map (fun x => Z.lxor x 54) k in
  let opad := map (fun x => Z.lxor x 92) k in
  SHA1_bytes (opad ++ SHA1_bytes (ipad ++ msg)).

(** [crypto.HmacSHA1(message, key)]: both arguments are strings and are
    parsed as UTF-8. *)
Definition HmacSHA1 (message key : string) : list Z :=
  HMAC_bytes (Utf8_parse message) (Utf8_parse key).

(** [crypto.enc.Base64.stringify]. *)
Definition base64_map : string :=
  "ABCDEFGHIJKLMNOPQRSTUVWXYZabcdefghijklmnopqrstuvwxyz0123456789+/".

Definition base64_char (x : Z) : ascii :=
  match String.get (Z.to_nat (Z.land x 63)) base64_map with
  | Some c => c
  | None => "="%char
  end.

Definition triplet (b1 b2 b3 : Z) : Z :=
  Z.lor (Z.shiftl b1 16) (Z.lor (Z.shiftl b2 8) b3).

Fixpoint Base64_stringify (l : list Z) : string :=
  match l with
  | [] => EmptyString
  | [b1] =>
      let t := triplet b1 0 0 in
      String (base64_char (Z.shiftr t 18))
        (String (base64_char (Z.shiftr t 12)) "==")
  | [b1; b2] =>
      let t := triplet b1 b2 0 in
      String (base64_char (Z.shiftr t 18))
        (String (base64_char (Z.shiftr t 12))
           (String (base64_char (Z.shiftr t 6)) "="))
  | b1 :: b2 :: b3 :: rest =>
      let t := triplet b1 b2 b3 in
      String (base64_char (Z.shiftr t 18))
        (String (base64_char (Z.shiftr t 12))
           (String (base64_char (Z.shiftr t 6))
              (String (base64_char t) (Base64_stringify rest))))
  end.

Definition hex_digit (x : Z) : ascii :=
  match String.get (Z.to_nat x) "0123456789abcdef" with
  | Some c => c
  | None => "?"%char
  end.

Fixpoint Hex_stringify (l : list Z) : string :=
  match l with
  | [] => EmptyString
  | b :: rest =>
      String (hex_digit (Z.shiftr b 4))
        (String (hex_digit (Z.land b 15)) (Hex_stringify rest))
  end.

End CryptoJS.

(** ** JavaScript values used by the builder *)

(** The [number]s the builder stores and renders. *)
Inductive number : Type :=
| Int (z : Z)
| NaN
| Infinity (negative : bool).

(** Truthiness of a number, as tested by [this.width || this.height || ...]. *)
Definition number_truthy (n : number) : bool :=
  match n with
  | Int z => negb (z =? 0)
  | NaN => false
  | Infinity _ => true
  end.

(** [n > 0]. *)
Definition number_gt0 (n : number) : bool :=
  match n with
  | Int z => 0 <? z
  | NaN => false
  | Infinity negative => negb negative
  end.

(** Conversion to string, as performed by [+=] and template literals. *)
Definition number_toString (n : number) : string :=
  match n with
  | Int z => NilZero.string_of_int (Z.to_int z)
  | NaN => "NaN"
  | Infinity false => "Infinity"
  | Infinity true => "-Infinity"
  end.

(** An empty string is falsy. *)
Definition string_truthy (s : string) : bool :=
  match s with
  | EmptyString => false
  | String _ _ => true
  end.

(** [s.charAt(i)]: the one-character string at index [i], or the empty
    string when [i] is out of range. *)
Definition charAt (s : string) (i : nat) : string :=
  match String.get i s with
  | Some c => String c EmptyString
  | None => EmptyString
  end.

(** [s.substring(a, b)]: both indices are clamped to the length and swapped
    when out of order. *)
Definition substring (s : string) (a b : nat) : string :=
  let a' := Nat.min a (String.length s) in
  let b' := Nat.min b (String.length s) in
  String.substring (Nat.min a' b') (Nat.max a' b' - Nat.min a' b') s.

(** [s.replace(/c/g, r)] for a single literal character [c] and a
    replacement [r] without [$] patterns. *)
Fixpoint replace_g (c : ascii) (r : string) (s : string) : string :=
  match s with
  | EmptyString => EmptyString
  | String x rest =>
      if Ascii.eqb x c then (r ++ replace_g c r rest)%string
      else String x (replace_g c r rest)
  end.

(** [parts.join(sep)] on an array of strings. *)
Definition join (sep : string) (parts : list string) : string :=
  String.concat sep parts.

(** ** The types imported from [./models] *)

(** Modelled from the spec: [./models] (the declarations of [HAlign],
    [VAlign], [CropModel] and [Format]) is not among the sources.  The spec
    gives horizontal alignment as left/center/right, each serialised as that
    token. *)
Inductive HAlign : Type := HAlign_left | HAlign_center | HAlign_right.

Definition HAlign_toString (a : HAlign) : string :=
  match a with
  | HAlign_left => "left"
  | HAlign_center => "center"
  | HAlign_right => "right"
  end.

(** Modelled from the spec: vertical alignment is top/middle/bottom, each
    serialised as that token. *)
Inductive VAlign : Type := VAlign_top | VAlign_middle | VAlign_bottom.

Definition VAlign_toString (a : VAlign) : string :=
  match a with
  | VAlign_top => "top"
  | VAlign_middle => "middle"
  | VAlign_bottom => "bottom"
  end.

(** Modelled from the spec: the crop window record [{left, top, right,
    bottom}]. *)
Record CropModel : Type := mkCropModel {
  left : number;
  top : number;
  right : number;
  bottom : number
}.

(** Modelled from the spec: image format identifiers ([webp], [jpeg], [png],
    ...) are opaque string tokens that the builder serialises as passed. *)
Definition Format : Type := string.

(** ** The builder object *)

(** The fields of [ThumborUrlBuilder].  [securityKey] is declared [string],
    but [getSecureString] tests it against [null]: [None] stands for a
    [null] or [undefined] key. *)
Record Builder : Type := mkBuilder {
  imagePath : string;
  width : number;
  height : number;
  smart : bool;
  fitInFlag : bool;
  flipHorizontally : bool;
  flipVertically : bool;
  hAlignValue : option HAlign;
  vAlignValue : option VAlign;
  cropValues : option CropModel;
  meta : bool;
  filtersCalls : list string;
  securityKey : option string;
  serverUrl : string
}.

(** [new ThumborUrlBuilder(securityKey, serverUrl)]: the field initialisers
    followed by the constructor's parameter properties. *)
Definition new_ThumborUrlBuilder (key : option string) (url : string)
  : Builder :=
  {| imagePath := ""; width := Int 0; height := Int 0; smart := false;
     fitInFlag := false; flipHorizontally := false; flipVertically := false;
     hAlignValue := None; vAlignValue := None; cropValues := None;
     meta := false; filtersCalls := []; securityKey := key;
     serverUrl := url |}.

(** Field assignments [this.f = v]. *)
Definition set_imagePath (v : string) (this : Builder) : Builder :=
  mkBuilder v (width this) (height this) (smart this) (fitInFlag this)
    (flipHorizontally this) (flipVertically this) (hAlignValue this)
    (vAlignValue this) (cropValues this) (meta this) (filtersCalls this)
    (securityKey this) (serverUrl this).

Definition set_width (v : number) (this : Builder) : Builder :=
  mkBuilder (imagePath this) v (height this) (smart this) (fitInFlag this)
    (flipHorizontally this) (flipVertically this) (hAlignValue this)
    (vAlignValue this) (cropValues this) (meta this) (filtersCalls this)
    (securityKey this) (serverUrl this).

Definition set_height (v : number) (this : Builder) : Builder :=
  mkBuilder (imagePath this) (width this) v (smart this) (fitInFlag this)
    (flipHorizontally this) (flipVertically this) (hAlignValue this)
    (vAlignValue this) (cropValues this) (meta this) (filtersCalls this)
    (securityKey this) (serverUrl this).

Definition set_smart (v : bool) (this : Builder) : Builder :=
  mkBuilder (imagePath this) (width this) (height this) v (fitInFlag this)
    (flipHorizontally this) (flipVertically this) (hAlignValue this)
    (vAlignValue this) (cropValues this) (meta this) (filtersCalls this)
    (securityKey this) (serverUrl this).

Definition set_fitInFlag (v : bool) (this : Builder) : Builder :=
  mkBuilder (imagePath this) (width this) (height this) (smart this) v
    (flipHorizontally this) (flipVertically this) (hAlignValue this)
    (vAlignValue this) (cropValues this) (meta this) (filtersCalls this)
    (securityKey this) (serverUrl this).

Definition set_flipHorizontally (v : bool) (this : Builder) : Builder :=
  mkBuilder (imagePath this) (width this) (height this) (smart this)
    (fitInFlag this) v (flipVertically this) (hAlignValue this)
    (vAlignValue this) (cropValues this) (meta this) (filtersCalls this)
    (securityKey this) (serverUrl this).

Definition set_flipVertically (v : bool) (this : Builder) : Builder :=
  mkBuilder (imagePath this) (width this) (height this) (smart this)
    (fitInFlag this) (flipHorizontally this) v (hAlignValue this)
    (vAlignValue this) (cropValues this) (meta this) (filtersCalls this)
    (securityKey this) (serverUrl this).

Definition set_hAlignValue (v : option HAlign) (this : Builder) : Builder :=
  mkBuilder (imagePath this) (width this) (height this) (smart this)
    (fitInFlag this) (flipHorizontally this) (flipVertically this) v
    (vAlignValue this) (cropValues this) (meta this) (filtersCalls this)
    (securityKey this) (serverUrl this).

Definition set_vAlignValue (v : option VAlign) (this : Builder) : Builder :=
  mkBuilder (imagePath this) (width this) (height this) (smart this)
    (fitInFlag this) (flipHorizontally this) (flipVertically this)
    (hAlignValue this) v (cropValues this) (meta this) (filtersCalls this)
    (securityKey this) (serverUrl this).

Definition set_cropValues (v : option CropModel) (this : Builder) : Builder :=
  mkBuilder (imagePath this) (width this) (height this) (smart this)
    (fitInFlag this) (flipHorizontally this) (flipVertically this)
    (hAlignValue this) (vAlignValue this) v (meta this) (filtersCalls this)
    (securityKey this) (serverUrl this).

Definition set_meta (v : bool) (this : Builder) : Builder :=
  mkBuilder (imagePath this) (width this) (height this) (smart this)
    (fitInFlag this) (flipHorizontally this) (flipVertically this)
    (hAlignValue this) (vAlignValue this) (cropValues this) v
    (filtersCalls this) (securityKey this) (serverUrl this).

Definition set_filtersCalls (v : list string) (this : Builder) : Builder :=
  mkBuilder (imagePath this) (width this) (height this) (smart this)
    (fitInFlag this) (flipHorizontally this) (flipVertically this)
    (hAlignValue this) (vAlignValue this) (cropValues this) (meta this) v
    (securityKey this) (serverUrl this).

(** ** Methods: state over [Builder], with exceptions *)

Record Error : Type := mkError { message : string }.

Inductive Result (A : Type) : Type :=
| Returned (a : A)
| Thrown (e : Error).
Arguments Returned {A} a.
Arguments Thrown {A} e.

(** A method body maps the receiver's state to its completion and the
    receiver's state afterwards. *)
Definition M (A : Type) : Type := Builder -> Result A * Builder.

Definition ret {A : Type} (a : A) : M A := fun this => (Returned a, this).

Definition throw {A : Type} (e : Error) : M A := fun this => (Thrown e, this).

Definition bind {A B : Type} (m : M A) (k : A -> M B) : M B :=
  fun this =>
    match m this with
    | (Returned a, this') => k a this'
    | (Thrown e, this') => (Thrown e, this')
    end.

Definition get_this : M Builder := fun this => (Returned this, this).

Definition assign (f : Builder -> Builder) : M unit :=
  fun this => (Returned tt, f this).

Notation "x <- m ;; k" := (bind m (fun x => k))
  (at level 61, m at next level, right associativity).
Notation "m ;;; k" := (bind m (fun _ => k))
  (at level 61, right associativity).

(** The methods of the class.  A fluent setter ends in [return this]; in the
    model the receiver is the threaded state and the setter returns [tt]. *)
Module ThumborUrlBuilder.

Definition setImagePath (imagePath : string) : M unit :=
  assign (set_imagePath
            (if String.eqb (charAt imagePath 0) "/"
             then substring imagePath 1 (String.length imagePath)
             else imagePath)).

Definition resize (width height : number) : M unit :=
  assign (set_width width) ;;;
  assign (set_height height).

Definition smartCrop (smartCrop : bool) : M unit :=
  assign (set_smart smartCrop).

Definition fitIn (width height : number) : M unit :=
  assign (set_width width) ;;;
  assign (set_height height) ;;;
  assign (set_fitInFlag true).

Definition withFlipHorizontally : M unit :=
  assign (set_flipHorizontally true).

Definition withFlipVertically : M unit :=
  assign (set_flipVertically true).

Definition hAlign (hAlign : HAlign) : M unit :=
  assign (set_hAlignValue (Some hAlign)).

Definition vAlign (vAlign : VAlign) : M unit :=
  assign (set_vAlignValue (Some vAlign)).

Definition metaDataOnly : M unit :=
  assign (set_meta true).

(** [this.filtersCalls.push(filterCall)]. *)
Definition filter (filterCall : string) : M unit :=
  this <- get_this ;;
  assign (set_filtersCalls (filtersCalls this ++ [filterCall])).

Definition format (format : Format) : M unit :=
  filter ("format(" ++ format ++ ")")%string.

Definition crop (left top right bottom : number) : M unit :=
  if number_gt0 left && number_gt0 top && number_gt0 right
     && number_gt0 bottom
  then assign (set_cropValues (Some (mkCropModel left top right bottom)))
  else ret tt.

Definition urlParts_error : Error :=
  mkError "The image url can't be null or empty.".

(** Each [if (...) parts.push(...)] of the source, in source order. *)
Definition urlParts : M (list string) :=
  this <- get_this ;;
  if negb (string_truthy (imagePath this)) then throw urlParts_error
  else
    let parts : list string := [] in
    let parts := if meta this then parts ++ ["meta"%string] else parts in
    let parts :=
      match cropValues this with
      | Some c =>
          parts ++ [(number_toString (left c) ++ "x"
                     ++ number_toString (top c) ++ ":"
                     ++ number_toString (right c) ++ "x"
                     ++ number_toString (bottom c))%string]
      | None => parts
      end in
    let parts :=
      if fitInFlag this then parts ++ ["fit-in"%string] else parts in
    let parts :=
      if number_truthy (width this) || number_truthy (height this)
         || flipHorizontally this || flipVertically this
      then
        let sizeString := ""%string in
        let sizeString :=
          if flipHorizontally this then (sizeString ++ "-")%string
          else sizeString in
        let sizeString :=
          (sizeString ++ number_toString (width this))%string in
        let sizeString := (sizeString ++ "x")%string in
        let sizeString :=
          if flipVertically this then (sizeString ++ "-")%string
          else sizeString in
        let sizeString :=
          (sizeString ++ number_toString (height this))%string in
        parts ++ [sizeString]
      else parts in
    let parts :=
      match hAlignValue this with
      | Some a => parts ++ [HAlign_toString a]
      | None => parts
      end in
    let parts :=
      match vAlignValue this with
      | Some a => parts ++ [VAlign_toString a]
      | None => parts
      end in
    let parts := if smart this then parts ++ ["smart"%string] else parts in
    let parts :=
      if (0 <? length (filtersCalls this))%nat
      then parts ++ [("filters:" ++ join ":" (filtersCalls this))%string]
      else parts in
    ret parts.

Definition getOperationPath : M string :=
  parts <- urlParts ;;
  if (0 =? length parts)%nat then ret ""%string
  else ret (join "/" parts ++ "/")%string.

(** The signer on strings that have a UTF-8 encoding; [WithURIError] below
    has it on all strings. *)
Definition getSecureString (operation : string) : M string :=
  this <- get_this ;;
  match securityKey this with
  | None => ret "unsafe"%string
  | Some securityKey =>
      let key :=
        CryptoJS.HmacSHA1 (operation ++ imagePath this)%string securityKey
      in
      let keyString :=
        replace_g "/" "_" (replace_g "+" "-" (CryptoJS.Base64_stringify key))
      in
      ret keyString
  end.

Definition buildUrl : M string :=
  operation <- getOperationPath ;;
  secureString <- getSecureString operation ;;
  this <- get_this ;;
  ret (serverUrl this ++ "/" ++ secureString ++ "/" ++ operation
       ++ imagePath this)%string.

End ThumborUrlBuilder.

(** ** Signing on all strings

    [crypto.HmacSHA1] turns its key and then its message into bytes with
    [Utf8.parse], which goes through [encodeURIComponent] and so throws
    [URIError] when the string holds an unpaired surrogate. *)
Module WithURIError.

Definition URIError : Error := mkError "URI malformed".

(** No unpaired surrogate: no byte [ED] followed by a byte from [A0] up. *)
Fixpoint Utf8_wellformed (s : string) : bool :=
  match s with
  | EmptyString => true
  | String c rest =>
      negb ((CryptoJS.byte_of_ascii c =? 237)
            && match rest with
               | String d _ => 160 <=? CryptoJS.byte_of_ascii d
               | EmptyString => false
               end)
      && Utf8_wellformed rest
  end.

Definition Utf8_parse (s : string) : Result (list Z) :=
  if Utf8_wellformed s then Returned (CryptoJS.Utf8_parse s)
  else Thrown URIError.

(** [crypto.HmacSHA1(message, key)]: the key is parsed when the HMAC is
    initialised, the message when it is finalised. *)
Definition HmacSHA1 (message key : string) : Result (list Z) :=
  match Utf8_parse key with
  | Thrown e => Thrown e
  | Returned k =>
      match Utf8_parse message with
      | Thrown e => Thrown e
      | Returned m => Returned (CryptoJS.HMAC_bytes m k)
      end
  end.

Definition getSecureString (operation : string) : M string :=
  this <- get_this ;;
  match securityKey this with
  | None => ret "unsafe"%string
  | Some securityKey =>
      match HmacSHA1 (operation ++ imagePath this)%string securityKey with
      | Thrown e => throw e
      | Returned key =>
          let keyString :=
            replace_g "/" "_"
              (replace_g "+" "-" (CryptoJS.Base64_stringify key)) in
          ret keyString
      end
  end.

Definition buildUrl : M string :=
  operation <- ThumborUrlBuilder.getOperationPath ;;
  secureString <- getSecureString operation ;;
  this <- get_this ;;
  ret (serverUrl this ++ "/" ++ secureString ++ "/" ++ operation
       ++ imagePath this)%string.

End WithURIError.

(** The string made of the one unpaired surrogate U+D800. *)
Definition lone_surrogate : string :=
  String "237" (String "160" (String "128" EmptyString)).

(** ** Call sequences on one builder *)

(** A call of a public method with its arguments. *)
Inductive Call : Type :=
| CsetImagePath (imagePath : string)
| Cresize (width height : number)
| CsmartCrop (smartCrop : bool)
| CfitIn (width height : number)
| CwithFlipHorizontally
| CwithFlipVertically
| ChAlign (hAlign : HAlign)
| CvAlign (vAlign : VAlign)
| CmetaDataOnly
| Cfilter (filterCall : string)
| Cformat (format : Format)
| Ccrop (left top right bottom : number)
| CurlParts
| CbuildUrl.

(** Setter calls are all calls but the two renderers. *)
Definition is_setter (c : Call) : bool :=
  match c with
  | CurlParts | CbuildUrl => false
  | _ => true
  end.

(** The completion of a call, its value dropped. *)
Definition invoke (c : Call) : M unit :=
  match c with
  | CsetImagePath p => ThumborUrlBuilder.setImagePath p
  | Cresize w h => ThumborUrlBuilder.resize w h
  | CsmartCrop s => ThumborUrlBuilder.smartCrop s
  | CfitIn w h => ThumborUrlBuilder.fitIn w h
  | CwithFlipHorizontally => ThumborUrlBuilder.withFlipHorizontally
  | CwithFlipVertically => ThumborUrlBuilder.withFlipVertically
  | ChAlign a => ThumborUrlBuilder.hAlign a
  | CvAlign a => ThumborUrlBuilder.vAlign a
  | CmetaDataOnly => ThumborUrlBuilder.metaDataOnly
  | Cfilter f => ThumborUrlBuilder.filter f
  | Cformat f => ThumborUrlBuilder.format f
  | Ccrop l t r b => ThumborUrlBuilder.crop l t r b
  | CurlParts => ThumborUrlBuilder.urlParts ;;; ret tt
  | CbuildUrl => WithURIError.buildUrl ;;; ret tt
  end.

(** The receiver after a call, whether it returned or threw (a caller may
    catch the exception and go on using the builder). *)
Definition after (c : Call) (this : Builder) : Builder := snd (invoke c this).

Definition after_all (cs : list Call) (this : Builder) : Builder :=
  fold_left (fun b c => after c b) cs this.

(** ** The renderer and the signer as the specification words them *)

(** The eight kinds of segment of an operation path. *)
Inductive Segment : Type :=
| Smeta | Scrop | SfitIn | Ssize | ShAlign | SvAlign | Ssmart | Sfilters.

(** The fixed order: meta, crop, fit-in, size, hAlign, vAlign, smart,
    filters. *)
Definition segment_order : list Segment :=
  [Smeta; Scrop; SfitIn; Ssize; ShAlign; SvAlign; Ssmart; Sfilters].

(** The condition under which a segment is emitted. *)
Definition segment_enabled (this : Builder) (s : Segment) : bool :=
  match s with
  | Smeta => meta this
  | Scrop => match cropValues this with Some _ => true | None => false end
  | SfitIn => fitInFlag this
  | Ssize =>
      number_truthy (width this) || number_truthy (height this)
      || flipHorizontally this || flipVertically this
  | ShAlign => match hAlignValue this with Some _ => true | None => false end
  | SvAlign => match vAlignValue this with Some _ => true | None => false end
  | Ssmart => smart this
  | Sfilters =>
      match filtersCalls this with [] => false | _ :: _ => true end
  end.

(** The text of a segment. *)
Definition segment_text (this : Builder) (s : Segment) : string :=
  match s with
  | Smeta => "meta"
  | Scrop =>
      match cropValues this with
      | Some c =>
          number_toString (left c) ++ "x" ++ number_toString (top c) ++ ":"
          ++ number_toString (right c) ++ "x" ++ number_toString (bottom c)
      | None => ""
      end
  | SfitIn => "fit-in"
  | Ssize =>
      (if flipHorizontally this then "-" else "")
      ++ number_toString (width this) ++ "x"
      ++ (if flipVertically this then "-" else "")
      ++ number_toString (height this)
  | ShAlign =>
      match hAlignValue this with Some a => HAlign_toString a | None => "" end
  | SvAlign =>
      match vAlignValue this with Some a => VAlign_toString a | None => "" end
  | Ssmart => "smart"
  | Sfilters => "filters:" ++ join ":" (filtersCalls this)
  end%string.

(** The segments rendered out of a list of kinds: those whose condition
    holds, in the order of the list. *)
Definition render (this : Builder) (kinds : list Segment) : list string :=
  map (segment_text this) (List.filter (segment_enabled this) kinds).

(** The operation path: the segments joined by [/] with a trailing [/], or
    the empty string when there is none. *)
Definition operationPath (this : Builder) : string :=
  match render this segment_order with
  | [] => ""
  | parts => join "/" parts ++ "/"
  end%string.

(** The URL-safe alphabet: [+] becomes [-], [/] becomes [_], every other
    character (the padding [=] included) is kept. *)
Definition url_safe (c : ascii) : ascii :=
  if Ascii.eqb c "+" then "-"%char
  else if Ascii.eqb c "/" then "_"%char
  else c.

Fixpoint string_map (f : ascii -> ascii) (s : string) : string :=
  match s with
  | EmptyString => EmptyString
  | String c rest => String (f c) (string_map f rest)
  end.

(** The signature token over an operation path. *)
Definition signature (this : Builder) (operation : string) : string :=
  match securityKey this with
  | None => "unsafe"
  | Some key =>
      string_map url_safe
        (CryptoJS.Base64_stringify
           (CryptoJS.HmacSHA1 (operation ++ imagePath this) key))
  end%string.

(** [s] begins with the characters of [p]. *)
Fixpoint startsWith (s p : string) : bool :=
  match p, s with
  | EmptyString, _ => true
  | String a p', String c s' => Ascii.eqb a c && startsWith s' p'
  | String _ _, EmptyString => false
  end.

(** [path] without its first character when that is [/]. *)
Definition strip_one_slash (path : string) : string :=
  match path with
  | String c rest => if Ascii.eqb c "/" then rest else path
  | EmptyString => path
  end.

Import ThumborUrlBuilder.

(** ** Known answers for the [crypto-js] model *)

Example sha1_abc :
  CryptoJS.Hex_stringify (CryptoJS.SHA1_bytes (CryptoJS.Utf8_parse "abc"))
  = "a9993e364706816aba3e25717850c26c9cd0d89d"%string.
Proof. vm_compute. reflexivity. Qed.

Example sha1_empty :
  CryptoJS.Hex_stringify (CryptoJS.SHA1_bytes [])
  = "da39a3ee5e6b4b0d3255bfef95601890afd80709"%string.
Proof. vm_compute. reflexivity. Qed.

Example hmac_sha1_fox :
  CryptoJS.Hex_stringify
    (CryptoJS.HmacSHA1 "The quick brown fox jumps over the lazy dog" "key")
  = "de7c9b85b8b78aa6bc8a7a36f70a90701c9db4d9"%string.
Proof. vm_compute. reflexivity. Qed.

Example hmac_sha1_long_key :
  CryptoJS.Hex_stringify
    (CryptoJS.HmacSHA1 "abc"
       "0123456789012345678901234567890123456789012345678901234567890123456789")
  = "e85a5180cdd0f48decb966f67a827537671282b4"%string.
Proof. vm_compute. reflexivity. Qed.

Example base64_foobar :
  map (fun s => CryptoJS.Base64_stringify (CryptoJS.Utf8_parse s))
      ["f"; "fo"; "foo"; "foob"; "fooba"; "foobar"]%string
  = ["Zg=="; "Zm8="; "Zm9v"; "Zm9vYg=="; "Zm9vYmE="; "Zm9vYmFy"]%string.
Proof. vm_compute. reflexivity. Qed.

(** ** Strings *)

Lemma append_assoc (a b c : string) :
  ((a ++ b) ++ c = a ++ (b ++ c))%string.
Proof.
  induction a as [|x a IH]; simpl; [reflexivity | now rewrite IH].
Qed.

Lemma string_truthy_false (s : string) :
  string_truthy s = false <-> s = ""%string.
Proof. destruct s; simpl; split; congruence. Qed.

Lemma string_truthy_true (s : string) :
  string_truthy s = true <-> s <> ""%string.
Proof. destruct s; simpl; split; congruence. Qed.

Lemma substring_0_all (s : string) :
  String.substring 0 (String.length s) s = s.
Proof.
  induction s as [|c s IH]; simpl; [reflexivity | now rewrite IH].
Qed.

(** Dropping the first character, as [substring(1, length)] does. *)
Lemma substring_tail (c : ascii) (rest : string) :
  substring (String c rest) 1 (String.length (String c rest)) = rest.
Proof.
  unfold substring. cbn [String.length].
  rewrite Nat.min_id.
  replace (Nat.min 1 (S (String.length rest))) with 1%nat by lia.
  replace (Nat.min 1 (S (String.length rest))) with 1%nat by lia.
  replace (Nat.max 1 (S (String.length rest)) - 1)%nat
    with (String.length rest) by lia.
  cbn [String.substring]. apply substring_0_all.
Qed.

Lemma string_map_length (f : ascii -> ascii) (s : string) :
  String.length (string_map f s) = String.length s.
Proof.
  induction s as [|c s IH]; simpl; [reflexivity | now rewrite IH].
Qed.

Lemma string_map_get (f : ascii -> ascii) (s : string) (i : nat) :
  String.get i (string_map f s) = option_map f (String.get i s).
Proof.
  revert i. induction s as [|c s IH]; intros [|i]; simpl; auto.
Qed.

Lemma replace_g_char (c r : ascii) (s : string) :
  replace_g c (String r EmptyString) s
  = string_map (fun x => if Ascii.eqb x c then r else x) s.
Proof.
  induction s as [|x s IH]; simpl; [reflexivity|].
  rewrite IH. now destruct (Ascii.eqb x c).
Qed.

Lemma string_map_compose (f g : ascii -> ascii) (s : string) :
  string_map g (string_map f s) = string_map (fun x => g (f x)) s.
Proof.
  induction s as [|x s IH]; simpl; [reflexivity | now rewrite IH].
Qed.

Lemma string_map_ext (f g : ascii -> ascii) (s : string) :
  (forall x, f x = g x) -> string_map f s = string_map g s.
Proof.
  intros E. induction s as [|x s IH]; simpl; [reflexivity|].
  now rewrite E, IH.
Qed.

(** The two [replace] calls of [getSecureString] amount to one pass with
    [url_safe]. *)
Lemma replace_g_url_safe (s : string) :
  replace_g "/" "_" (replace_g "+" "-" s) = string_map url_safe s.
Proof.
  rewrite !replace_g_char, string_map_compose.
  apply string_map_ext. intros x. unfold url_safe.
  destruct (Ascii.eqb x "+") eqn:E; [reflexivity|].
  reflexivity.
Qed.


(** ** The digest and its encoding *)

Lemma SHA1_bytes_length (msg : list Z) :
  length (CryptoJS.SHA1_bytes msg) = 20%nat.
Proof.
  unfold CryptoJS.SHA1_bytes.
  generalize (fold_left CryptoJS.compress
                (CryptoJS.chunks (length (CryptoJS.sha1_pad msg) / 64)
                   (CryptoJS.sha1_pad msg)) CryptoJS.sha1_init).
  intros [[[[h0 h1] h2] h3] h4]. reflexivity.
Qed.

Lemma HmacSHA1_length (message key : string) :
  length (CryptoJS.HmacSHA1 message key) = 20%nat.
Proof. apply SHA1_bytes_length. Qed.

(** Twenty bytes encode to twenty-eight characters, the last one being the
    padding character. *)
Lemma Base64_stringify_20 (l : list Z) :
  length l = 20%nat ->
  String.length (CryptoJS.Base64_stringify l) = 28%nat
  /\ String.get 27 (CryptoJS.Base64_stringify l) = Some "="%char.
Proof.
  intros H.
  do 20 (destruct l as [|? l]; [discriminate H|]).
  destruct l; [|discriminate H].
  cbn [CryptoJS.Base64_stringify String.length String.get].
  split; reflexivity.
Qed.

(** ** What each method does to the receiver *)

(** [urlParts] throws on an empty image path and otherwise returns the
    enabled segments in the fixed order; it never assigns a field. *)
Lemma urlParts_eq (this : Builder) :
  urlParts this
  = (if string_truthy (imagePath this)
     then Returned (render this segment_order)
     else Thrown urlParts_error, this).
Proof.
  unfold urlParts, bind, get_this, throw, ret, render, segment_order.
  destruct this as [ip w h sm fi fh fv ha va cv me fc key url].
  cbn [imagePath width height smart fitInFlag flipHorizontally
       flipVertically hAlignValue vAlignValue cropValues meta filtersCalls].
  destruct (string_truthy ip); [|reflexivity].
  cbn [negb List.filter segment_enabled meta cropValues fitInFlag width
       height flipHorizontally flipVertically hAlignValue vAlignValue smart
       filtersCalls].
  destruct me, cv as [c|], fi,
    (number_truthy w || number_truthy h || fh || fv) eqn:Esize,
    ha as [a|], va as [a'|], sm, fc as [|f0 fc];
    cbn [app map segment_text length Nat.ltb Nat.leb cropValues
         flipHorizontally flipVertically width height hAlignValue
         vAlignValue filtersCalls];
    try reflexivity.
  all: destruct fh, fv; cbn [append]; rewrite ?append_assoc; reflexivity.
Qed.

Lemma getOperationPath_eq (this : Builder) :
  getOperationPath this
  = (if string_truthy (imagePath this)
     then Returned (operationPath this)
     else Thrown urlParts_error, this).
Proof.
  unfold getOperationPath, bind, operationPath. rewrite urlParts_eq.
  destruct (string_truthy (imagePath this)); [|reflexivity].
  destruct (render this segment_order); reflexivity.
Qed.

Lemma getSecureString_eq (operation : string) (this : Builder) :
  getSecureString operation this = (Returned (signature this operation), this).
Proof.
  unfold getSecureString, signature, bind, get_this, ret.
  destruct (securityKey this); [|reflexivity].
  now rewrite replace_g_url_safe.
Qed.

Lemma buildUrl_eq (this : Builder) :
  buildUrl this
  = (if string_truthy (imagePath this)
     then Returned (serverUrl this ++ "/"
                    ++ signature this (operationPath this) ++ "/"
                    ++ operationPath this ++ imagePath this)%string
     else Thrown urlParts_error, this).
Proof.
  unfold buildUrl, bind. rewrite getOperationPath_eq.
  destruct (string_truthy (imagePath this)); [|reflexivity].
  rewrite getSecureString_eq. reflexivity.
Qed.

Example Utf8_wellformed_examples :
  WithURIError.Utf8_wellformed "/some/path/image.jpg" = true
  /\ WithURIError.Utf8_wellformed
       (String "237" (String "159" (String "191" EmptyString))) = true
  /\ WithURIError.Utf8_wellformed lone_surrogate = false
  /\ WithURIError.Utf8_wellformed ("a/" ++ lone_surrogate ++ ".png") = false.
Proof. repeat split. Qed.

(** The key and the text to sign have a UTF-8 encoding, or there is no
    key. *)
Definition signable (this : Builder) (operation : string) : bool :=
  match securityKey this with
  | None => true
  | Some key =>
      WithURIError.Utf8_wellformed key
      && WithURIError.Utf8_wellformed (operation ++ imagePath this)
  end.

Lemma WithURIError_HmacSHA1_eq (message key : string) :
  WithURIError.HmacSHA1 message key
  = if WithURIError.Utf8_wellformed key
       && WithURIError.Utf8_wellformed message
    then Returned (CryptoJS.HmacSHA1 message key)
    else Thrown WithURIError.URIError.
Proof.
  unfold WithURIError.HmacSHA1, WithURIError.Utf8_parse.
  destruct (WithURIError.Utf8_wellformed key); [|reflexivity].
  destruct (WithURIError.Utf8_wellformed message); reflexivity.
Qed.

Lemma WithURIError_getSecureString_eq (operation : string) (this : Builder) :
  WithURIError.getSecureString operation this
  = (if signable this operation then Returned (signature this operation)
     else Thrown WithURIError.URIError, this).
Proof.
  unfold WithURIError.getSecureString, signable, signature, bind, get_this,
    ret, throw.
  destruct (securityKey this) as [key|]; [|reflexivity].
  rewrite WithURIError_HmacSHA1_eq.
  destruct (WithURIError.Utf8_wellformed key
            && WithURIError.Utf8_wellformed (operation ++ imagePath this));
    [|reflexivity].
  now rewrite replace_g_url_safe.
Qed.

Lemma WithURIError_buildUrl_eq (this : Builder) :
  WithURIError.buildUrl this
  = (if string_truthy (imagePath this)
     then if signable this (operationPath this)
          then Returned (serverUrl this ++ "/"
                         ++ signature this (operationPath this) ++ "/"
                         ++ operationPath this ++ imagePath this)%string
          else Thrown WithURIError.URIError
     else Thrown urlParts_error, this).
Proof.
  unfold WithURIError.buildUrl, bind. rewrite getOperationPath_eq.
  destruct (string_truthy (imagePath this)); [|reflexivity].
  rewrite WithURIError_getSecureString_eq.
  destruct (signable this (operationPath this)); reflexivity.
Qed.

(** On strings that have a UTF-8 encoding the signer and [buildUrl] are
    those of [ThumborUrlBuilder]. *)
Lemma WithURIError_buildUrl_signable (this : Builder) :
  signable this (operationPath this) = true ->
  WithURIError.buildUrl this = buildUrl this.
Proof.
  intros H. rewrite WithURIError_buildUrl_eq, buildUrl_eq, H. reflexivity.
Qed.

(** Case analysis on the guard of [crop]. *)
Ltac crop_cases :=
  unfold crop;
  match goal with
  | |- context [if ?g then _ else _] => destruct g
  end.

(** The two renderers leave the receiver as it was. *)
Lemma after_renderer (c : Call) (this : Builder) :
  is_setter c = false -> after c this = this.
Proof.
  destruct c; try discriminate; intros _; unfold after, invoke, bind.
  - rewrite urlParts_eq. now destruct (string_truthy (imagePath this)).
  - rewrite WithURIError_buildUrl_eq.
    destruct (string_truthy (imagePath this)); [|reflexivity].
    now destruct (signable this (operationPath this)).
Qed.

(** A setter returns; it never throws. *)
Lemma setter_returns (c : Call) (this : Builder) :
  is_setter c = true -> fst (invoke c this) = Returned tt.
Proof.
  destruct c; try discriminate; intros _; try reflexivity.
  cbn [invoke]. now crop_cases.
Qed.

(** A call that throws is a renderer call: the usage error of [urlParts] on
    an empty image path, or the [URIError] of the signer in [buildUrl]. *)
Lemma invoke_thrown (c : Call) (this : Builder) (e : Error) :
  fst (invoke c this) = Thrown e ->
  is_setter c = false
  /\ (e = urlParts_error /\ imagePath this = ""%string
      \/ c = CbuildUrl /\ e = WithURIError.URIError
         /\ imagePath this <> ""%string /\ securityKey this <> None).
Proof.
  destruct (is_setter c) eqn:S.
  - rewrite (setter_returns c this S). discriminate.
  - destruct c; try discriminate; cbn [invoke]; unfold bind.
    + rewrite urlParts_eq.
      destruct (string_truthy (imagePath this)) eqn:T; cbn; [discriminate|].
      intros [= <-]. apply string_truthy_false in T. now split; [|left].
    + rewrite WithURIError_buildUrl_eq.
      destruct (string_truthy (imagePath this)) eqn:T.
      * apply string_truthy_true in T. unfold signable.
        destruct (securityKey this) as [key|]; [|discriminate].
        destruct (WithURIError.Utf8_wellformed key
                  && WithURIError.Utf8_wellformed
                       (operationPath this ++ imagePath this));
          cbn; [discriminate|].
        intros [= <-]. split; [reflexivity|]. right.
        repeat split; [exact T | discriminate].
      * cbn. intros [= <-]. apply string_truthy_false in T.
        now split; [|left].
Qed.

(** The construction parameters are never reassigned. *)
Lemma after_securityKey (c : Call) (this : Builder) :
  securityKey (after c this) = securityKey this.
Proof.
  destruct (is_setter c) eqn:S.
  - destruct c; try discriminate; try reflexivity.
    unfold after. cbn [invoke]. now crop_cases.
  - now rewrite after_renderer.
Qed.

Lemma after_serverUrl (c : Call) (this : Builder) :
  serverUrl (after c this) = serverUrl this.
Proof.
  destruct (is_setter c) eqn:S.
  - destruct c; try discriminate; try reflexivity.
    unfold after. cbn [invoke]. now crop_cases.
  - now rewrite after_renderer.
Qed.

(** No call clears the fit-in flag. *)
Lemma after_fitInFlag (c : Call) (this : Builder) :
  fitInFlag this = true -> fitInFlag (after c this) = true.
Proof.
  intros F. destruct (is_setter c) eqn:S.
  - destruct c; try discriminate; try reflexivity; try exact F.
    unfold after. cbn [invoke]. now crop_cases.
  - now rewrite after_renderer.
Qed.

Lemma after_all_cons (c : Call) (cs : list Call) (this : Builder) :
  after_all (c :: cs) this = after_all cs (after c this).
Proof. reflexivity. Qed.

Lemma after_all_app (cs1 cs2 : list Call) (this : Builder) :
  after_all (cs1 ++ cs2) this = after_all cs2 (after_all cs1 this).
Proof. apply fold_left_app. Qed.

Lemma after_all_securityKey (cs : list Call) (this : Builder) :
  securityKey (after_all cs this) = securityKey this.
Proof.
  revert this. induction cs as [|c cs IH]; intros this; [reflexivity|].
  rewrite after_all_cons, IH. apply after_securityKey.
Qed.

Lemma after_all_serverUrl (cs : list Call) (this : Builder) :
  serverUrl (after_all cs this) = serverUrl this.
Proof.
  revert this. induction cs as [|c cs IH]; intros this; [reflexivity|].
  rewrite after_all_cons, IH. apply after_serverUrl.
Qed.

Lemma after_all_fitInFlag (cs : list Call) (this : Builder) :
  fitInFlag this = true -> fitInFlag (after_all cs this) = true.
Proof.
  revert this. induction cs as [|c cs IH]; intros this F; [exact F|].
  rewrite after_all_cons. apply IH, after_fitInFlag, F.
Qed.

(** The filter calls a sequence of calls appends, in call order. *)
Definition appended_filters (cs : list Call) : list string :=
  flat_map (fun c =>
              match c with
              | Cfilter f => [f]
              | Cformat fmt => [("format(" ++ fmt ++ ")")%string]
              | _ => []
              end) cs.

Lemma after_filtersCalls (c : Call) (this : Builder) :
  filtersCalls (after c this) = filtersCalls this ++ appended_filters [c].
Proof.
  destruct (is_setter c) eqn:S.
  - destruct c; try discriminate; cbn [appended_filters flat_map];
      rewrite ?app_nil_r; try reflexivity.
    unfold after. cbn [invoke]. now crop_cases.
  - rewrite after_renderer by exact S.
    destruct c; try discriminate; cbn; now rewrite app_nil_r.
Qed.

Lemma after_all_filtersCalls (cs : list Call) (this : Builder) :
  filtersCalls (after_all cs this) = filtersCalls this ++ appended_filters cs.
Proof.
  revert this. induction cs as [|c cs IH]; intros this.
  - cbn. now rewrite app_nil_r.
  - rewrite after_all_cons, IH, after_filtersCalls.
    rewrite <- app_assoc. f_equal.
    unfold appended_filters. cbn [flat_map]. now rewrite app_nil_r.
Qed.

(** The rendering of the seven kinds before [filters] is followed by the
    filters segment, when there is one. *)
Lemma render_filters_last (this : Builder) :
  render this segment_order
  = render this [Smeta; Scrop; SfitIn; Ssize; ShAlign; SvAlign; Ssmart]
    ++ match filtersCalls this with
       | [] => []
       | _ :: _ => [("filters:" ++ join ":" (filtersCalls this))%string]
       end.
Proof.
  unfold render, segment_order.
  change [Smeta; Scrop; SfitIn; Ssize; ShAlign; SvAlign; Ssmart; Sfilters]
    with ([Smeta; Scrop; SfitIn; Ssize; ShAlign; SvAlign; Ssmart]
            ++ [Sfilters]).
  rewrite filter_app, map_app. f_equal.
  cbn [List.filter segment_enabled].
  destruct (filtersCalls this) eqn:E; cbn [map segment_text];
    now rewrite ?E.
Qed.

(** * The claims *)

(** A builder with an image path, used to instantiate the theorems. *)
Definition example_builder (key : option string) : Builder :=
  after_all [CsetImagePath "/image.jpg"; Cresize (Int 300) (Int 200)]
    (new_ThumborUrlBuilder key "http://example.com").

(** The claim of C1 as stated fails: with a security key and an image path
    that holds an unpaired surrogate, the image path is not empty and
    [buildUrl] throws, with the [URIError] of [crypto.HmacSHA1]. *)
Lemma buildUrl_URIError_counterexample :
  let this :=
    after (CsetImagePath lone_surrogate)
      (new_ThumborUrlBuilder (Some "key"%string) "http://example.com") in
  imagePath this = lone_surrogate
  /\ imagePath this <> ""%string
  /\ WithURIError.buildUrl this = (Thrown WithURIError.URIError, this)
  /\ ~ (forall b : Builder,
          imagePath b <> ""%string ->
          exists url, WithURIError.buildUrl b = (Returned url, b)).
Proof.
  cbv zeta. split; [reflexivity|]. split; [discriminate|].
  split; [vm_compute; reflexivity|].
  intros H.
  destruct (H (after (CsetImagePath lone_surrogate)
                 (new_ThumborUrlBuilder (Some "key"%string)
                    "http://example.com"))) as [url E].
  - discriminate.
  - vm_compute in E. discriminate E.
Qed.

(** C1, amended: [buildUrl] throws the usage error exactly when the stored
    image path is empty, and that is the only validation failure: no setter
    ever throws.  With a non-empty image path [buildUrl] returns a URL when
    the builder has no security key, and also when it has one and neither
    the key nor the text to sign (operation path followed by image path)
    holds an unpaired surrogate; otherwise it throws the [URIError] of
    [crypto.HmacSHA1].  It throws nothing else and never writes a field,
    and a call of any public method that throws is a call of [urlParts] or
    [buildUrl] throwing one of these two errors. *)
Theorem buildUrl_throws_usage_error_iff_imagePath_empty (this : Builder) :
  (fst (WithURIError.buildUrl this) = Thrown urlParts_error
   <-> imagePath this = ""%string)
  /\ snd (WithURIError.buildUrl this) = this
  /\ (imagePath this <> ""%string -> securityKey this = None ->
      exists url, WithURIError.buildUrl this = (Returned url, this))
  /\ (forall key operation : string,
        imagePath this <> ""%string -> securityKey this = Some key ->
        getOperationPath this = (Returned operation, this) ->
        if WithURIError.Utf8_wellformed key
           && WithURIError.Utf8_wellformed (operation ++ imagePath this)
        then exists url, WithURIError.buildUrl this = (Returned url, this)
        else WithURIError.buildUrl this
             = (Thrown WithURIError.URIError, this))
  /\ (forall e : Error,
        fst (WithURIError.buildUrl this) = Thrown e ->
        e = urlParts_error /\ imagePath this = ""%string
        \/ e = WithURIError.URIError /\ imagePath this <> ""%string
           /\ securityKey this <> None)
  /\ (forall (c : Call) (e : Error),
        fst (invoke c this) = Thrown e ->
        is_setter c = false
        /\ (e = urlParts_error /\ imagePath this = ""%string
            \/ c = CbuildUrl /\ e = WithURIError.URIError
               /\ imagePath this <> ""%string /\ securityKey this <> None)).
Proof.
  split; [|split; [|split; [|split; [|split]]]].
  - rewrite WithURIError_buildUrl_eq, <- string_truthy_false. cbn [fst].
    destruct (string_truthy (imagePath this));
      [destruct (signable this (operationPath this))|];
      split; try discriminate; reflexivity.
  - now rewrite WithURIError_buildUrl_eq.
  - intros NE K. rewrite WithURIError_buildUrl_eq.
    apply string_truthy_true in NE. rewrite NE.
    unfold signable. rewrite K. eauto.
  - intros key operation NE K. rewrite getOperationPath_eq.
    rewrite WithURIError_buildUrl_eq.
    apply string_truthy_true in NE. rewrite NE. intros [= <-].
    unfold signable. rewrite K.
    destruct (WithURIError.Utf8_wellformed key
              && WithURIError.Utf8_wellformed
                   (operationPath this ++ imagePath this));
      [eauto | reflexivity].
  - intros e. rewrite WithURIError_buildUrl_eq. cbn [fst].
    destruct (string_truthy (imagePath this)) eqn:T.
    + apply string_truthy_true in T. unfold signable.
      destruct (securityKey this) as [key|]; [|discriminate].
      destruct (WithURIError.Utf8_wellformed key
                && WithURIError.Utf8_wellformed
                     (operationPath this ++ imagePath this));
        [discriminate|].
      intros [= <-]. right. repeat split; [exact T | discriminate].
    + apply string_truthy_false in T. intros [= <-]. now left.
  - intros c e. apply invoke_thrown.
Qed.

Lemma buildUrl_throws_usage_error_iff_imagePath_empty_witness :
  (exists url,
     WithURIError.buildUrl (example_builder None)
     = (Returned url, example_builder None))
  /\ (exists url,
        WithURIError.buildUrl (example_builder (Some "MY_SECURE_KEY"%string))
        = (Returned url, example_builder (Some "MY_SECURE_KEY"%string)))
  /\ WithURIError.buildUrl
       (after (Cfilter lone_surrogate)
          (example_builder (Some "MY_SECURE_KEY"%string)))
     = (Thrown WithURIError.URIError,
        after (Cfilter lone_surrogate)
          (example_builder (Some "MY_SECURE_KEY"%string)))
  /\ fst (WithURIError.buildUrl
            (new_ThumborUrlBuilder None "http://example.com"))
     = Thrown urlParts_error.
Proof.
  split; [|split; [|split]].
  - apply (buildUrl_throws_usage_error_iff_imagePath_empty
             (example_builder None)); [discriminate | reflexivity].
  - apply (proj1 (proj2 (proj2 (proj2
             (buildUrl_throws_usage_error_iff_imagePath_empty
                (example_builder (Some "MY_SECURE_KEY"%string))))))
             "MY_SECURE_KEY"%string "300x200/"%string);
      [discriminate | reflexivity | vm_compute; reflexivity].
  - apply (proj1 (proj2 (proj2 (proj2
             (buildUrl_throws_usage_error_iff_imagePath_empty
                (after (Cfilter lone_surrogate)
                   (example_builder (Some "MY_SECURE_KEY"%string)))))))
             "MY_SECURE_KEY"%string
             ("300x200/filters:" ++ lone_surrogate ++ "/")%string);
      [discriminate | reflexivity | vm_compute; reflexivity].
  - apply (buildUrl_throws_usage_error_iff_imagePath_empty
             (new_ThumborUrlBuilder None "http://example.com")).
    reflexivity.
Defined.

(** Every feature switched on, the image path set last. *)
Definition example_calls : list Call :=
  [Cfilter "quality(80)"; CsmartCrop true; CvAlign VAlign_top;
   ChAlign HAlign_left; CfitIn (Int 100) (Int 0);
   Ccrop (Int 1) (Int 2) (Int 3) (Int 4); CmetaDataOnly;
   CsetImagePath "a.png"].

Example urlParts_example_calls :
  fst (urlParts (after_all example_calls
                   (new_ThumborUrlBuilder None "http://example.com")))
  = Returned ["meta"; "1x2:3x4"; "fit-in"; "100x0"; "left"; "top"; "smart";
              "filters:quality(80)"]%string.
Proof. vm_compute. reflexivity. Qed.

Example urlParts_example_calls_reversed :
  fst (urlParts (after_all (rev example_calls)
                   (new_ThumborUrlBuilder None "http://example.com")))
  = Returned ["meta"; "1x2:3x4"; "fit-in"; "100x0"; "left"; "top"; "smart";
              "filters:quality(80)"]%string.
Proof. vm_compute. reflexivity. Qed.

(** C2: in every state reached from a fresh builder by any sequence of calls,
    whatever their order, [urlParts] returns the texts of the segments whose
    condition holds, and of no other, in the fixed order meta, crop, fit-in,
    size, hAlign, vAlign, smart, filters. *)
Theorem urlParts_fixed_segment_order
    (key : option string) (url : string) (cs : list Call) :
  let this := after_all cs (new_ThumborUrlBuilder key url) in
  imagePath this <> ""%string ->
  urlParts this
  = (Returned
       (map (segment_text this)
            (List.filter (segment_enabled this)
               [Smeta; Scrop; SfitIn; Ssize; ShAlign; SvAlign; Ssmart;
                Sfilters])),
     this).
Proof.
  intros this NE. rewrite urlParts_eq.
  apply string_truthy_true in NE. now rewrite NE.
Qed.

Lemma urlParts_fixed_segment_order_witness :
  let this :=
    after_all example_calls (new_ThumborUrlBuilder None "http://example.com")
  in
  imagePath this <> ""%string
  /\ urlParts this
     = (Returned
          (map (segment_text this)
               (List.filter (segment_enabled this)
                  [Smeta; Scrop; SfitIn; Ssize; ShAlign; SvAlign; Ssmart;
                   Sfilters])),
        this).
Proof.
  assert (NE : imagePath
                 (after_all example_calls
                    (new_ThumborUrlBuilder None "http://example.com"))
               <> ""%string)
    by (vm_compute; discriminate).
  split; [exact NE|].
  exact (urlParts_fixed_segment_order None "http://example.com"
           example_calls NE).
Defined.

(** C3: a builder constructed without a security key keeps none, whatever is
    called on it; its signature token is the literal [unsafe], and that is
    the token of every URL it builds. *)
Theorem unsigned_token_is_unsafe
    (url : string) (cs : list Call) (operation : string) :
  let this := after_all cs (new_ThumborUrlBuilder None url) in
  getSecureString operation this = (Returned "unsafe"%string, this)
  /\ (forall op built,
        getOperationPath this = (Returned op, this) ->
        buildUrl this = (Returned built, this) ->
        built = (url ++ "/" ++ "unsafe" ++ "/" ++ op ++ imagePath this)%string).
Proof.
  intros this.
  assert (K : securityKey this = None)
    by (unfold this; now rewrite after_all_securityKey).
  assert (U : serverUrl this = url)
    by (unfold this; now rewrite after_all_serverUrl).
  split.
  - rewrite getSecureString_eq. unfold signature. now rewrite K.
  - intros op built. rewrite getOperationPath_eq, buildUrl_eq.
    destruct (string_truthy (imagePath this)); [|discriminate].
    intros [= <-] [= <-]. unfold signature. now rewrite K, U.
Qed.

Lemma unsigned_token_is_unsafe_witness :
  "http://example.com/unsafe/300x200/image.jpg"%string
  = ("http://example.com" ++ "/" ++ "unsafe" ++ "/" ++ "300x200/"
     ++ imagePath (example_builder None))%string.
Proof.
  apply (proj2 (unsigned_token_is_unsafe "http://example.com"
                  [CsetImagePath "/image.jpg"; Cresize (Int 300) (Int 200)]
                  "300x200/")).
  - vm_compute. reflexivity.
  - vm_compute. reflexivity.
Defined.


Example buildUrl_signed :
  let this :=
    after (CsetImagePath "image10.jpg")
      (example_builder (Some "MY_SECURE_KEY"%string)) in
  CryptoJS.Base64_stringify
    (CryptoJS.HmacSHA1 "300x200/image10.jpg" "MY_SECURE_KEY")
  = "eAcN/sVLXHbBZN3/A3qmFq+PFRE="%string
  /\ fst (buildUrl this)
     = Returned
         "http://example.com/eAcN_sVLXHbBZN3_A3qmFq-PFRE=/300x200/image10.jpg"%string.
Proof. vm_compute. split; reflexivity. Qed.


(** C5: [crop] assigns the crop window when its four arguments are all
    greater than zero, and only then; otherwise it returns without throwing
    and leaves every field of the builder as it was.  For integer arguments
    the guard is [0 < left], [0 < top], [0 < right] and [0 < bottom].
    [crop(0, 5, 10, 10)] changes nothing, and after [crop(1, 2, 3, 4)] the
    segment following [meta] is [1x2:3x4]. *)
Theorem crop_sets_window_iff_all_positive
    (l t r b : number) (this : Builder) :
  let guard := number_gt0 l && number_gt0 t && number_gt0 r && number_gt0 b in
  (guard = true ->
   crop l t r b this
   = (Returned tt,
      mkBuilder (imagePath this) (width this) (height this) (smart this)
        (fitInFlag this) (flipHorizontally this) (flipVertically this)
        (hAlignValue this) (vAlignValue this)
        (Some (mkCropModel l t r b)) (meta this) (filtersCalls this)
        (securityKey this) (serverUrl this)))
  /\ (guard = false -> crop l t r b this = (Returned tt, this))
  /\ (forall zl zt zr zb : Z,
        number_gt0 (Int zl) && number_gt0 (Int zt) && number_gt0 (Int zr)
        && number_gt0 (Int zb) = true
        <-> 0 < zl /\ 0 < zt /\ 0 < zr /\ 0 < zb)
  /\ crop (Int 0) (Int 5) (Int 10) (Int 10) this = (Returned tt, this)
  /\ (imagePath this <> ""%string ->
      let this' := snd (crop (Int 1) (Int 2) (Int 3) (Int 4) this) in
      fst (urlParts this')
      = Returned
          (render this' [Smeta] ++ ["1x2:3x4"%string]
           ++ render this' [SfitIn; Ssize; ShAlign; SvAlign; Ssmart;
                            Sfilters])).
Proof.
  intros guard. split; [|split; [|split; [|split]]].
  - intros G. unfold crop. fold guard. now rewrite G.
  - intros G. unfold crop. fold guard. now rewrite G.
  - intros zl zt zr zb. cbn [number_gt0].
    rewrite !andb_true_iff, !Z.ltb_lt. tauto.
  - reflexivity.
  - intros NE this'. rewrite urlParts_eq.
    apply string_truthy_true in NE.
    replace (imagePath this') with (imagePath this) by reflexivity.
    rewrite NE. cbn [fst]. f_equal.
    unfold render, segment_order. cbn [List.filter segment_enabled].
    destruct (meta this'); reflexivity.
Qed.

Lemma crop_sets_window_iff_all_positive_witness :
  let this :=
    after (CsetImagePath "a.png")
      (new_ThumborUrlBuilder None "http://example.com") in
  cropValues (snd (crop (Int 1) (Int 2) (Int 3) (Int 4) this))
  = Some (mkCropModel (Int 1) (Int 2) (Int 3) (Int 4))
  /\ crop (Int 7) (Int (-1)) (Int 3) (Int 4) this = (Returned tt, this)
  /\ crop (Int 7) NaN (Int 3) (Int 4) this = (Returned tt, this)
  /\ fst (urlParts (snd (crop (Int 1) (Int 2) (Int 3) (Int 4) this)))
     = Returned ["1x2:3x4"%string].
Proof.
  intros this.
  pose proof (crop_sets_window_iff_all_positive
                (Int 1) (Int 2) (Int 3) (Int 4) this)
    as (Hset & _ & _ & _ & U).
  pose proof (crop_sets_window_iff_all_positive
                (Int 7) (Int (-1)) (Int 3) (Int 4) this) as (_ & N & _).
  pose proof (crop_sets_window_iff_all_positive
                (Int 7) NaN (Int 3) (Int 4) this) as (_ & N' & _).
  split; [|split; [|split]].
  - rewrite (Hset eq_refl). reflexivity.
  - exact (N eq_refl).
  - exact (N' eq_refl).
  - rewrite U; [reflexivity | vm_compute; discriminate].
Defined.

(** The claim of C6 as stated fails: [setImagePath("//image.jpg")] stores
    [/image.jpg], which begins with a slash. *)
Lemma setImagePath_double_slash_counterexample :
  let this :=
    snd (setImagePath "//image.jpg"
           (new_ThumborUrlBuilder None "http://example.com")) in
  imagePath this = "/image.jpg"%string
  /\ startsWith (imagePath this) "/" = true
  /\ ~ (forall (path : string) (b : Builder),
          startsWith (imagePath (snd (setImagePath path b))) "/" = false).
Proof.
  cbv zeta. split; [reflexivity|]. split; [reflexivity|].
  intros H.
  specialize (H "//image.jpg"%string
                (new_ThumborUrlBuilder None "http://example.com")).
  vm_compute in H. discriminate H.
Qed.

(** C6, amended: [setImagePath] removes exactly one leading [/] when there
    is one and stores any other input unchanged, touching no other field.
    The stored path begins with [/] exactly when the input begins with
    [//]; in particular it has no leading slash whenever the input does not
    begin with two slashes. *)
Theorem setImagePath_strips_one_leading_slash
    (path : string) (this : Builder) :
  setImagePath path this
  = (Returned tt,
     mkBuilder (strip_one_slash path)
       (width this) (height this) (smart this) (fitInFlag this)
       (flipHorizontally this) (flipVertically this) (hAlignValue this)
       (vAlignValue this) (cropValues this) (meta this) (filtersCalls this)
       (securityKey this) (serverUrl this))
  /\ startsWith (imagePath (snd (setImagePath path this))) "/"
     = startsWith path "//"
  /\ (startsWith path "//" = false ->
      startsWith (imagePath (snd (setImagePath path this))) "/" = false).
Proof.
  assert (E : (if String.eqb (charAt path 0) "/"
               then substring path 1 (String.length path) else path)
              = strip_one_slash path).
  { destruct path as [|c rest]; [reflexivity|].
    cbn [charAt String.get strip_one_slash].
    destruct (Ascii.eqb_spec c "/") as [->|N].
    - apply substring_tail.
    - destruct (String.eqb_spec (String c EmptyString) "/") as [Q|Q];
        [|reflexivity].
      injection Q as Q. now elim N. }
  assert (P : startsWith (strip_one_slash path) "/" = startsWith path "//").
  { destruct path as [|c rest]; [reflexivity|].
    cbn [strip_one_slash startsWith].
    rewrite (Ascii.eqb_sym "/" c).
    destruct (Ascii.eqb_spec c "/") as [->|N]; cbn [andb startsWith].
    - destruct rest; reflexivity.
    - rewrite (Ascii.eqb_sym "/" c).
      destruct (Ascii.eqb_spec c "/") as [->|_]; [now elim N|reflexivity]. }
  unfold setImagePath, assign, set_imagePath. rewrite E.
  split; [reflexivity|].
  cbn [snd imagePath]. split; [exact P|].
  intros H. now rewrite P.
Qed.

Lemma setImagePath_strips_one_leading_slash_witness :
  startsWith
    (imagePath (snd (setImagePath "/some/path/image.jpg"
                       (new_ThumborUrlBuilder None "http://example.com"))))
    "/" = false.
Proof.
  apply (setImagePath_strips_one_leading_slash "/some/path/image.jpg"
           (new_ThumborUrlBuilder None "http://example.com")).
  reflexivity.
Defined.

(** C7: [resize] and [fitIn] both overwrite [width] and [height] with their
    arguments; [fitIn] also sets the fit-in flag; [resize] leaves the flag
    and every field other than [width] and [height] as they were.  Once the
    flag is set it stays set after any further sequence of calls. *)
Theorem resize_fitIn_overwrite_and_flag_sticky
    (w h : number) (this : Builder) :
  resize w h this
  = (Returned tt,
     mkBuilder (imagePath this) w h (smart this) (fitInFlag this)
       (flipHorizontally this) (flipVertically this) (hAlignValue this)
       (vAlignValue this) (cropValues this) (meta this) (filtersCalls this)
       (securityKey this) (serverUrl this))
  /\ fitIn w h this
     = (Returned tt,
        mkBuilder (imagePath this) w h (smart this) true
          (flipHorizontally this) (flipVertically this) (hAlignValue this)
          (vAlignValue this) (cropValues this) (meta this)
          (filtersCalls this) (securityKey this) (serverUrl this))
  /\ (forall (w' h' : number) (cs : list Call),
        fitInFlag (after_all (CfitIn w h :: cs ++ [Cresize w' h']) this)
        = true)
  /\ (forall cs : list Call,
        fitInFlag this = true -> fitInFlag (after_all cs this) = true).
Proof.
  split; [reflexivity|]. split; [reflexivity|]. split.
  - intros w' h' cs. rewrite after_all_cons. now apply after_all_fitInFlag.
  - intros cs. apply after_all_fitInFlag.
Qed.

Lemma resize_fitIn_overwrite_and_flag_sticky_witness :
  let this :=
    after (CfitIn (Int 100) (Int 0))
      (new_ThumborUrlBuilder None "http://example.com") in
  fitInFlag this = true
  /\ fitInFlag
       (after_all [Cresize (Int 300) (Int 200); CsetImagePath "a.png";
                   CbuildUrl; Cresize (Int 0) (Int 0)] this) = true.
Proof.
  intros this. split; [reflexivity|].
  apply (resize_fitIn_overwrite_and_flag_sticky (Int 0) (Int 0) this).
  reflexivity.
Defined.

Example resize_after_fitIn :
  fst (buildUrl
         (after_all [CsetImagePath "a.png"; CfitIn (Int 100) (Int 0);
                     Cresize (Int 300) (Int 200)]
            (new_ThumborUrlBuilder None "http://example.com")))
  = Returned "http://example.com/unsafe/fit-in/300x200/a.png"%string.
Proof. vm_compute. reflexivity. Qed.

(** C8: [buildUrl] leaves the builder as it found it, so a second call with
    no setter call in between completes exactly as the first: two builds
    in a row return the same URL twice, or throw the same error. *)
Theorem buildUrl_pure_and_idempotent (this : Builder) :
  snd (buildUrl this) = this
  /\ buildUrl (snd (buildUrl this)) = buildUrl this
  /\ (first <- buildUrl ;; second <- buildUrl ;; ret (first, second)) this
     = match fst (buildUrl this) with
       | Returned url => (Returned (url, url), this)
       | Thrown e => (Thrown e, this)
       end.
Proof.
  assert (P : snd (buildUrl this) = this)
    by (rewrite buildUrl_eq; reflexivity).
  split; [exact P|]. split; [now rewrite P|].
  unfold bind. rewrite buildUrl_eq.
  destruct (string_truthy (imagePath this)) eqn:T; cbn [fst];
    [rewrite buildUrl_eq, T|]; reflexivity.
Qed.

(** C9: every [filter] call appends its argument to [filtersCalls], and
    [format(fmt)] is [filter("format(" + fmt + ")")]; over any sequence of
    calls the list grows by exactly the filter calls made, in call order,
    duplicates kept.  [urlParts] ends with the single segment [filters:]
    followed by the calls joined by [:] when there is at least one call, and
    has no such segment otherwise. *)
Theorem filters_accumulate_and_render (this : Builder) :
  (forall filterCall : string,
     filter filterCall this
     = (Returned tt,
        mkBuilder (imagePath this) (width this) (height this) (smart this)
          (fitInFlag this) (flipHorizontally this) (flipVertically this)
          (hAlignValue this) (vAlignValue this) (cropValues this)
          (meta this) (filtersCalls this ++ [filterCall])
          (securityKey this) (serverUrl this)))
  /\ (forall fmt : Format,
        format fmt this = filter ("format(" ++ fmt ++ ")")%string this)
  /\ (forall cs : list Call,
        filtersCalls (after_all cs this)
        = filtersCalls this ++ appended_filters cs)
  /\ (imagePath this <> ""%string ->
      fst (urlParts this)
      = Returned
          (render this [Smeta; Scrop; SfitIn; Ssize; ShAlign; SvAlign; Ssmart]
           ++ match filtersCalls this with
              | [] => []
              | _ :: _ =>
                  [("filters:" ++ join ":" (filtersCalls this))%string]
              end)).
Proof.
  split; [reflexivity|]. split; [reflexivity|]. split.
  - intros cs. apply after_all_filtersCalls.
  - intros NE. rewrite urlParts_eq.
    apply string_truthy_true in NE. rewrite NE. cbn [fst].
    now rewrite render_filters_last.
Qed.

Lemma filters_accumulate_and_render_witness :
  let this :=
    after_all [CsetImagePath "a.png"; Cfilter "quality(80)"; Cformat "webp"]
      (new_ThumborUrlBuilder None "http://example.com") in
  imagePath this <> ""%string
  /\ fst (urlParts this)
     = Returned ["filters:quality(80):format(webp)"%string].
Proof.
  intros this.
  assert (NE : imagePath this <> ""%string) by (vm_compute; discriminate).
  split; [exact NE|].
  destruct (filters_accumulate_and_render this) as (_ & _ & _ & R).
  rewrite (R NE). reflexivity.
Defined.

Example filters_keep_duplicates :
  filtersCalls
    (after_all [Cfilter "blur(1)"; Cresize (Int 1) (Int 1); Cformat "png";
                Cfilter "blur(1)"]
       (new_ThumborUrlBuilder None "http://example.com"))
  = ["blur(1)"; "format(png)"; "blur(1)"]%string.
Proof. reflexivity. Qed.



(** ** End-to-end examples *)

Example buildUrl_resize :
  fst (buildUrl
         (after_all [CsetImagePath "/image.jpg"; Cresize (Int 300) (Int 200)]
            (new_ThumborUrlBuilder None "http://example.com")))
  = Returned "http://example.com/unsafe/300x200/image.jpg"%string.
Proof. vm_compute. reflexivity. Qed.

Example buildUrl_fitIn_aligned :
  fst (buildUrl
         (after_all [CfitIn (Int 100) (Int 0); ChAlign HAlign_left;
                     CvAlign VAlign_top; CsetImagePath "a.png"]
            (new_ThumborUrlBuilder None "http://example.com")))
  = Returned "http://example.com/unsafe/fit-in/100x0/left/top/a.png"%string.
Proof. vm_compute. reflexivity. Qed.

Example urlParts_flipped :
  fst (urlParts
         (after_all [CwithFlipHorizontally; Cresize (Int 50) (Int 50);
                     CsetImagePath "x.jpg"]
            (new_ThumborUrlBuilder None "http://example.com")))
  = Returned ["-50x50"%string].
Proof. vm_compute. reflexivity. Qed.

Example buildUrl_no_operation :
  fst (buildUrl
         (after (CsetImagePath "x.jpg")
            (new_ThumborUrlBuilder None "http://example.com")))
  = Returned "http://example.com/unsafe/x.jpg"%string.
Proof. vm_compute. reflexivity. Qed.


(** * Further properties of the builder *)

(** ** The operation path *)

Lemma append_length (a b : string) :
  String.length (a ++ b) = (String.length a + String.length b)%nat.
Proof.
  induction a as [|x a IH]; simpl; [reflexivity | now rewrite IH].
Qed.

Lemma append_nil_r (a : string) : (a ++ "")%string = a.
Proof.
  induction a as [|x a IH]; simpl; [reflexivity | now rewrite IH].
Qed.

(** Joining with [/] and closing with [/] is writing every part followed by
    [/]. *)
Lemma join_slash_concat (p : string) (parts : list string) :
  (join "/" (p :: parts) ++ "/")%string
  = String.concat "" (map (fun s => s ++ "/")%string (p :: parts)).
Proof.
  revert p. induction parts as [|q parts IH]; intros p.
  - cbn. rewrite ?append_nil_r. reflexivity.
  - change (join "/" (p :: q :: parts))
      with (p ++ "/" ++ join "/" (q :: parts))%string.
    change (String.concat "" (map (fun s => s ++ "/")%string (p :: q :: parts)))
      with ((p ++ "/") ++ ""
            ++ String.concat ""
                 (map (fun s => s ++ "/")%string (q :: parts)))%string.
    rewrite <- IH. cbn [append]. now rewrite !append_assoc.
Qed.

(** X1: [getOperationPath] throws when [urlParts] does, and otherwise
    returns every part of [urlParts] followed by a [/]: the empty string
    exactly when there is no part. *)
Theorem getOperationPath_parts_slash_terminated (this : Builder) :
  (forall e : Error,
     urlParts this = (Thrown e, this) ->
     getOperationPath this = (Thrown e, this))
  /\ (forall parts : list string,
        urlParts this = (Returned parts, this) ->
        exists operation,
          getOperationPath this = (Returned operation, this)
          /\ operation
             = String.concat "" (map (fun s => s ++ "/")%string parts)
          /\ (operation = ""%string <-> parts = [])).
Proof.
  split.
  - intros e H. unfold getOperationPath, bind. now rewrite H.
  - intros parts H. unfold getOperationPath, bind. rewrite H.
    destruct parts as [|p parts].
    + exists ""%string. repeat split; reflexivity.
    + exists (join "/" (p :: parts) ++ "/")%string.
      split; [reflexivity|]. split; [apply join_slash_concat|].
      split; [|discriminate].
      intros E. apply (f_equal String.length) in E.
      rewrite append_length in E. cbn in E. lia.
Qed.

Lemma getOperationPath_parts_slash_terminated_witness :
  exists operation,
    getOperationPath (example_builder None)
    = (Returned operation, example_builder None)
    /\ operation
       = String.concat "" (map (fun s => s ++ "/")%string ["300x200"%string])
    /\ (operation = ""%string <-> ["300x200"%string] = []).
Proof.
  apply (getOperationPath_parts_slash_terminated (example_builder None)).
  vm_compute. reflexivity.
Defined.

(** A string equation refuted by comparing lengths. *)
Ltac by_length E :=
  apply (f_equal String.length) in E;
  repeat rewrite append_length in E; cbn [String.length] in E; lia.

Lemma segment_text_nonempty (this : Builder) (s : Segment) :
  segment_enabled this s = true -> segment_text this s <> ""%string.
Proof.
  destruct s; cbn [segment_enabled segment_text]; try discriminate.
  - destruct (cropValues this); [|discriminate]. intros _ E. by_length E.
  - intros _ E. by_length E.
  - destruct (hAlignValue this) as [[]|]; discriminate.
  - destruct (vAlignValue this) as [[]|]; discriminate.
Qed.

Lemma render_nonempty (this : Builder) (kinds : list Segment) :
  Forall (fun p => p <> ""%string) (render this kinds).
Proof.
  unfold render. induction kinds as [|k kinds IH]; [constructor|].
  cbn [List.filter]. destruct (segment_enabled this k) eqn:E; [|exact IH].
  cbn [map]. constructor; [now apply segment_text_nonempty | exact IH].
Qed.

Lemma render_length (this : Builder) (kinds : list Segment) :
  (length (render this kinds) <= length kinds)%nat.
Proof.
  unfold render. rewrite length_map. apply filter_length_le.
Qed.

(** X2: [urlParts] never returns an empty segment, and never more than
    eight segments. *)
Theorem urlParts_segments_nonempty (this : Builder) (parts : list string) :
  urlParts this = (Returned parts, this) ->
  Forall (fun p => p <> ""%string) parts /\ (length parts <= 8)%nat.
Proof.
  rewrite urlParts_eq.
  destruct (string_truthy (imagePath this)); [|discriminate].
  intros [= <-]. split; [apply render_nonempty|].
  apply (render_length this segment_order).
Qed.

Lemma urlParts_segments_nonempty_witness :
  Forall (fun p => p <> ""%string)
    ["meta"; "1x2:3x4"; "fit-in"; "100x0"; "left"; "top"; "smart";
     "filters:quality(80)"]%string
  /\ (length ["meta"; "1x2:3x4"; "fit-in"; "100x0"; "left"; "top"; "smart";
              "filters:quality(80)"]%string <= 8)%nat.
Proof.
  apply (urlParts_segments_nonempty
           (after_all example_calls
              (new_ThumborUrlBuilder None "http://example.com"))).
  vm_compute. reflexivity.
Defined.

(** ** Invariants over call sequences *)

Section Preserved.

Variable P : Builder -> Prop.
Hypothesis P_after : forall (c : Call) (this : Builder),
    P this -> P (after c this).

Lemma after_all_preserves (cs : list Call) (this : Builder) :
  P this -> P (after_all cs this).
Proof.
  revert this. induction cs as [|c cs IH]; intros this H; [exact H|].
  rewrite after_all_cons. apply IH, P_after, H.
Qed.

End Preserved.

(** Case analysis on a call: a setter is run, a renderer changes nothing. *)
Ltac by_call c :=
  let S := fresh "S" in
  destruct (is_setter c) eqn:S;
  [ destruct c; try discriminate S; unfold after; cbn [invoke];
    try (unfold crop;
         match goal with
         | |- context [if ?g then _ else _] =>
             let G := fresh "Hguard" in destruct g eqn:G
         end)
  | rewrite (after_renderer c _ S) ].

(** The crop window, when there is one, has four positive coordinates. *)
Definition crop_window_positive (this : Builder) : Prop :=
  match cropValues this with
  | None => True
  | Some c =>
      number_gt0 (left c) && number_gt0 (top c) && number_gt0 (right c)
      && number_gt0 (bottom c) = true
  end.

Lemma after_crop_window_positive (c : Call) (this : Builder) :
  crop_window_positive this -> crop_window_positive (after c this).
Proof.
  intros H. by_call c; try exact H.
  unfold crop_window_positive. cbn. exact Hguard.
Qed.

(** X3: every state reached from a fresh builder has no crop window or one
    whose four coordinates are all greater than zero; the crop segment is
    never rendered from a non-positive coordinate. *)
Theorem reachable_crop_window_positive
    (key : option string) (url : string) (cs : list Call) :
  match cropValues (after_all cs (new_ThumborUrlBuilder key url)) with
  | None => True
  | Some c =>
      number_gt0 (left c) = true /\ number_gt0 (top c) = true
      /\ number_gt0 (right c) = true /\ number_gt0 (bottom c) = true
  end.
Proof.
  assert (H : crop_window_positive
                (after_all cs (new_ThumborUrlBuilder key url))).
  { apply after_all_preserves.
    - exact after_crop_window_positive.
    - exact I. }
  unfold crop_window_positive in H.
  destruct (cropValues (after_all cs (new_ThumborUrlBuilder key url)));
    [|exact I].
  rewrite !andb_true_iff in H. tauto.
Qed.

(** No call clears [meta], [flipHorizontally] or [flipVertically]. *)
Lemma after_meta (c : Call) (this : Builder) :
  meta this = true -> meta (after c this) = true.
Proof. intros H. by_call c; first [exact H | reflexivity]. Qed.

Lemma after_flipHorizontally (c : Call) (this : Builder) :
  flipHorizontally this = true -> flipHorizontally (after c this) = true.
Proof. intros H. by_call c; first [exact H | reflexivity]. Qed.

Lemma after_flipVertically (c : Call) (this : Builder) :
  flipVertically this = true -> flipVertically (after c this) = true.
Proof. intros H. by_call c; first [exact H | reflexivity]. Qed.

(** No call assigns [null] to an alignment or to the crop window. *)
Lemma after_hAlignValue (c : Call) (this : Builder) :
  hAlignValue this <> None -> hAlignValue (after c this) <> None.
Proof. intros H. by_call c; first [exact H | discriminate]. Qed.

Lemma after_vAlignValue (c : Call) (this : Builder) :
  vAlignValue this <> None -> vAlignValue (after c this) <> None.
Proof. intros H. by_call c; first [exact H | discriminate]. Qed.

Lemma after_cropValues (c : Call) (this : Builder) :
  cropValues this <> None -> cropValues (after c this) <> None.
Proof. intros H. by_call c; first [exact H | discriminate]. Qed.

(** X4: the flags set by [metaDataOnly], [withFlipHorizontally] and
    [withFlipVertically] cannot be cleared: once true they are true after
    any further sequence of calls, and from then on the size segment is
    rendered whatever the width and height. *)
Theorem meta_and_flips_sticky (cs : list Call) (this : Builder) :
  (meta this = true -> meta (after_all cs this) = true)
  /\ (flipHorizontally this = true ->
      flipHorizontally (after_all cs this) = true)
  /\ (flipVertically this = true ->
      flipVertically (after_all cs this) = true)
  /\ (flipHorizontally this = true \/ flipVertically this = true ->
      imagePath (after_all cs this) <> ""%string ->
      exists parts size,
        fst (urlParts (after_all cs this)) = Returned parts
        /\ In size parts
        /\ size
           = ((if flipHorizontally (after_all cs this) then "-" else "")
              ++ number_toString (width (after_all cs this)) ++ "x"
              ++ (if flipVertically (after_all cs this) then "-" else "")
              ++ number_toString (height (after_all cs this)))%string).
Proof.
  assert (FH : flipHorizontally this = true ->
               flipHorizontally (after_all cs this) = true)
    by (apply (after_all_preserves (fun b => flipHorizontally b = true));
        exact after_flipHorizontally).
  assert (FV : flipVertically this = true ->
               flipVertically (after_all cs this) = true)
    by (apply (after_all_preserves (fun b => flipVertically b = true));
        exact after_flipVertically).
  split; [|split; [exact FH|split; [exact FV|]]].
  - apply (after_all_preserves (fun b => meta b = true)). exact after_meta.
  - intros F NE. set (b := after_all cs this) in *.
    assert (E : segment_enabled b Ssize = true).
    { cbn [segment_enabled].
      destruct F as [F|F]; [rewrite (FH F)|rewrite (FV F)];
        now rewrite ?orb_true_r. }
    exists (render b segment_order), (segment_text b Ssize).
    split; [|split; [|reflexivity]].
    + rewrite urlParts_eq. apply string_truthy_true in NE. now rewrite NE.
    + unfold render. apply in_map, filter_In. split; [|exact E].
      unfold segment_order. cbn. tauto.
Qed.

Lemma meta_and_flips_sticky_witness :
  let this :=
    after_all [CwithFlipHorizontally; CmetaDataOnly]
      (new_ThumborUrlBuilder None "http://example.com") in
  let cs := [Cresize (Int 0) (Int 0); CsetImagePath "x.jpg"] in
  meta (after_all cs this) = true
  /\ flipHorizontally (after_all cs this) = true
  /\ fst (urlParts (after_all cs this)) = Returned ["meta"; "-0x0"]%string.
Proof.
  intros this cs.
  destruct (meta_and_flips_sticky cs this) as (M & F & _ & R).
  split; [exact (M eq_refl)|]. split; [exact (F eq_refl)|].
  reflexivity.
Defined.

(** X5: an alignment or a crop window, once set, can be replaced but not
    removed: after [hAlign], [vAlign] or an accepted [crop], the field is
    non-null after any further sequence of calls. *)
Theorem alignments_and_crop_never_unset (cs : list Call) (this : Builder) :
  (hAlignValue this <> None -> hAlignValue (after_all cs this) <> None)
  /\ (vAlignValue this <> None -> vAlignValue (after_all cs this) <> None)
  /\ (cropValues this <> None -> cropValues (after_all cs this) <> None).
Proof.
  split; [|split].
  - apply (after_all_preserves (fun b => hAlignValue b <> None)).
    exact after_hAlignValue.
  - apply (after_all_preserves (fun b => vAlignValue b <> None)).
    exact after_vAlignValue.
  - apply (after_all_preserves (fun b => cropValues b <> None)).
    exact after_cropValues.
Qed.

Lemma alignments_and_crop_never_unset_witness :
  let this :=
    after_all [ChAlign HAlign_left; Ccrop (Int 1) (Int 2) (Int 3) (Int 4)]
      (new_ThumborUrlBuilder None "http://example.com") in
  let cs := [ChAlign HAlign_right; Ccrop (Int 0) (Int 0) (Int 0) (Int 0);
             CbuildUrl] in
  hAlignValue (after_all cs this) <> None
  /\ cropValues (after_all cs this) <> None.
Proof.
  intros this cs.
  destruct (alignments_and_crop_never_unset cs this) as (H & _ & C).
  split; [apply H | apply C]; discriminate.
Defined.

(** X6: the two constructor parameters are never reassigned: whatever is
    called on a builder, its security key and its server URL are those it
    was constructed with. *)
Theorem construction_parameters_fixed
    (key : option string) (url : string) (cs : list Call) :
  securityKey (after_all cs (new_ThumborUrlBuilder key url)) = key
  /\ serverUrl (after_all cs (new_ThumborUrlBuilder key url)) = url.
Proof.
  split.
  - now rewrite after_all_securityKey.
  - now rewrite after_all_serverUrl.
Qed.

(** X7: [urlParts] and [buildUrl] never write a field, wherever they occur
    in a sequence of calls and whether they return or throw: deleting them
    from the sequence leaves the final state the same. *)
Theorem renderer_calls_erasable (cs : list Call) (this : Builder) :
  after_all cs this = after_all (List.filter is_setter cs) this.
Proof.
  revert this. induction cs as [|c cs IH]; intros this; [reflexivity|].
  rewrite after_all_cons. cbn [List.filter].
  destruct (is_setter c) eqn:S.
  - rewrite after_all_cons. apply IH.
  - rewrite (after_renderer c this S). apply IH.
Qed.

(** ** How setter calls compose *)

(** The fields of the builder that a method assigns. *)
Inductive Field : Type :=
| FimagePath | Fwidth | Fheight | Fsmart | FfitInFlag | FflipHorizontally
| FflipVertically | FhAlignValue | FvAlignValue | FcropValues | Fmeta
| FfiltersCalls.

Definition Field_eqb (f g : Field) : bool :=
  match f, g with
  | FimagePath, FimagePath | Fwidth, Fwidth | Fheight, Fheight
  | Fsmart, Fsmart | FfitInFlag, FfitInFlag
  | FflipHorizontally, FflipHorizontally
  | FflipVertically, FflipVertically | FhAlignValue, FhAlignValue
  | FvAlignValue, FvAlignValue | FcropValues, FcropValues | Fmeta, Fmeta
  | FfiltersCalls, FfiltersCalls => true
  | _, _ => false
  end.

Definition assigns (c : Call) : list Field :=
  match c with
  | CsetImagePath _ => [FimagePath]
  | Cresize _ _ => [Fwidth; Fheight]
  | CsmartCrop _ => [Fsmart]
  | CfitIn _ _ => [Fwidth; Fheight; FfitInFlag]
  | CwithFlipHorizontally => [FflipHorizontally]
  | CwithFlipVertically => [FflipVertically]
  | ChAlign _ => [FhAlignValue]
  | CvAlign _ => [FvAlignValue]
  | CmetaDataOnly => [Fmeta]
  | Cfilter _ | Cformat _ => [FfiltersCalls]
  | Ccrop _ _ _ _ => [FcropValues]
  | CurlParts | CbuildUrl => []
  end.

Definition disjoint (fs gs : list Field) : bool :=
  forallb (fun f => negb (existsb (Field_eqb f) gs)) fs.

(** X8: two calls that assign no field in common commute: the builder ends
    in the same state whichever is made first.  In particular a setter of
    one feature can be moved across the setters of all other features. *)
Theorem calls_on_distinct_fields_commute (c1 c2 : Call) (this : Builder) :
  disjoint (assigns c1) (assigns c2) = true ->
  after c2 (after c1 this) = after c1 (after c2 this).
Proof.
  intros D.
  destruct (is_setter c1) eqn:S1;
    [|now rewrite (after_renderer c1 this S1),
                  (after_renderer c1 (after c2 this) S1)].
  destruct (is_setter c2) eqn:S2;
    [|now rewrite (after_renderer c2 this S2),
                  (after_renderer c2 (after c1 this) S2)].
  destruct c1; try discriminate S1; destruct c2;
    try discriminate S2; try discriminate D;
    unfold after; cbn [invoke]; unfold crop;
    repeat match goal with
           | |- context [if ?g then _ else _] => destruct g
           end;
    reflexivity.
Qed.

Lemma calls_on_distinct_fields_commute_witness :
  let this := new_ThumborUrlBuilder None "http://example.com" in
  after (Ccrop (Int 1) (Int 2) (Int 3) (Int 4))
    (after (CfitIn (Int 100) (Int 0)) this)
  = after (CfitIn (Int 100) (Int 0))
      (after (Ccrop (Int 1) (Int 2) (Int 3) (Int 4)) this).
Proof.
  intros this.
  apply (calls_on_distinct_fields_commute
           (CfitIn (Int 100) (Int 0)) (Ccrop (Int 1) (Int 2) (Int 3) (Int 4))).
  reflexivity.
Defined.

(** [c2] assigns every field that [c1] assigns, from its arguments alone. *)
Definition overrides (c1 c2 : Call) : bool :=
  match c1, c2 with
  | CsetImagePath _, CsetImagePath _
  | Cresize _ _, Cresize _ _
  | Cresize _ _, CfitIn _ _
  | CfitIn _ _, CfitIn _ _
  | CsmartCrop _, CsmartCrop _
  | CwithFlipHorizontally, CwithFlipHorizontally
  | CwithFlipVertically, CwithFlipVertically
  | ChAlign _, ChAlign _
  | CvAlign _, CvAlign _
  | CmetaDataOnly, CmetaDataOnly => true
  | Ccrop _ _ _ _, Ccrop l t r b =>
      number_gt0 l && number_gt0 t && number_gt0 r && number_gt0 b
  | _, _ => false
  end.

(** X9: the last call wins.  A second [setImagePath], [resize],
    [smartCrop], [hAlign] or [vAlign] erases the effect of the first, as
    does [fitIn] after [resize] or [fitIn], and [crop] with four positive
    arguments after any [crop]; the argument-less setters are idempotent.
    The state is the one the second call alone would have produced. *)
Theorem last_setter_call_wins (c1 c2 : Call) (this : Builder) :
  overrides c1 c2 = true ->
  after c2 (after c1 this) = after c2 this.
Proof.
  intros O.
  destruct c1, c2; try discriminate O;
    unfold after; cbn [invoke]; try reflexivity.
  cbn [overrides] in O. unfold crop. rewrite O.
  match goal with
  | |- context [if ?g then _ else _] => destruct g
  end; reflexivity.
Qed.

Lemma last_setter_call_wins_witness :
  let this := new_ThumborUrlBuilder None "http://example.com" in
  after (CfitIn (Int 100) (Int 0)) (after (Cresize (Int 300) (Int 200)) this)
  = after (CfitIn (Int 100) (Int 0)) this
  /\ after (Ccrop (Int 1) (Int 2) (Int 3) (Int 4))
       (after (Ccrop (Int 9) (Int 9) (Int 9) (Int 9)) this)
     = after (Ccrop (Int 1) (Int 2) (Int 3) (Int 4)) this.
Proof.
  intros this. split.
  - apply (last_setter_call_wins (Cresize (Int 300) (Int 200))
             (CfitIn (Int 100) (Int 0))).
    reflexivity.
  - apply (last_setter_call_wins (Ccrop (Int 9) (Int 9) (Int 9) (Int 9))
             (Ccrop (Int 1) (Int 2) (Int 3) (Int 4))).
    reflexivity.
Defined.

(** ** The server URL and the signature *)

(** The same builder behind another server URL. *)
Definition with_serverUrl (url : string) (this : Builder) : Builder :=
  mkBuilder (imagePath this) (width this) (height this) (smart this)
    (fitInFlag this) (flipHorizontally this) (flipVertically this)
    (hAlignValue this) (vAlignValue this) (cropValues this) (meta this)
    (filtersCalls this) (securityKey this) url.

Lemma render_with_serverUrl (url : string) (this : Builder)
    (kinds : list Segment) :
  render (with_serverUrl url this) kinds = render this kinds.
Proof.
  unfold render. induction kinds as [|k kinds IH]; [reflexivity|].
  cbn [List.filter].
  replace (segment_enabled (with_serverUrl url this) k)
    with (segment_enabled this k) by (destruct k; reflexivity).
  destruct (segment_enabled this k); [|exact IH].
  cbn [map]. rewrite IH.
  replace (segment_text (with_serverUrl url this) k)
    with (segment_text this k) by (destruct k; reflexivity).
  reflexivity.
Qed.

Lemma after_with_serverUrl (url : string) (c : Call) (this : Builder) :
  after c (with_serverUrl url this) = with_serverUrl url (after c this).
Proof.
  destruct (is_setter c) eqn:S.
  - destruct c; try discriminate S; unfold after; cbn [invoke];
      try reflexivity.
    unfold crop.
    match goal with
    | |- context [if ?g then _ else _] => destruct g
    end; reflexivity.
  - now rewrite !(after_renderer c _ S).
Qed.

Lemma after_all_with_serverUrl (url : string) (cs : list Call)
    (this : Builder) :
  after_all cs (with_serverUrl url this)
  = with_serverUrl url (after_all cs this).
Proof.
  revert this. induction cs as [|c cs IH]; intros this; [reflexivity|].
  now rewrite !after_all_cons, after_with_serverUrl, IH.
Qed.

(** X10: the server URL takes no part in the rendering or in the signature.
    Two builders constructed with the same key and driven by the same calls
    have the same operation path and the same signature token, and the URLs
    they build differ only in the leading server URL. *)
Theorem serverUrl_is_only_a_prefix
    (key : option string) (url1 url2 : string) (cs : list Call) :
  let b1 := after_all cs (new_ThumborUrlBuilder key url1) in
  let b2 := after_all cs (new_ThumborUrlBuilder key url2) in
  fst (getOperationPath b1) = fst (getOperationPath b2)
  /\ (forall operation,
        fst (getSecureString operation b1) = fst (getSecureString operation b2))
  /\ (forall built1,
        fst (buildUrl b1) = Returned built1 ->
        exists rest,
          built1 = (url1 ++ rest)%string
          /\ fst (buildUrl b2) = Returned (url2 ++ rest)%string).
Proof.
  intros b1 b2.
  assert (E : b2 = with_serverUrl url2 b1).
  { unfold b2, b1. rewrite <- after_all_with_serverUrl. reflexivity. }
  assert (U : serverUrl b1 = url1)
    by (unfold b1; now rewrite after_all_serverUrl).
  assert (O : operationPath b2 = operationPath b1)
    by (rewrite E; unfold operationPath; now rewrite render_with_serverUrl).
  assert (I : imagePath b2 = imagePath b1) by (now rewrite E).
  assert (G : forall operation, signature b2 operation = signature b1 operation)
    by (intros operation; now rewrite E).
  split; [|split].
  - rewrite !getOperationPath_eq, I, O. reflexivity.
  - intros operation. rewrite !getSecureString_eq. cbn [fst]. now rewrite G.
  - intros built1. rewrite !buildUrl_eq, I.
    destruct (string_truthy (imagePath b1)); [|discriminate].
    cbn [fst]. intros [= <-].
    exists ("/" ++ signature b1 (operationPath b1) ++ "/"
            ++ operationPath b1 ++ imagePath b1)%string.
    split; [now rewrite U|].
    assert (U2 : serverUrl b2 = url2)
      by (unfold b2; now rewrite after_all_serverUrl).
    rewrite U2, O, G. reflexivity.
Qed.

Lemma serverUrl_is_only_a_prefix_witness :
  exists rest,
    "http://example.com/unsafe/300x200/image.jpg"%string
    = ("http://example.com" ++ rest)%string
    /\ fst (buildUrl
              (after_all
                 [CsetImagePath "/image.jpg"; Cresize (Int 300) (Int 200)]
                 (new_ThumborUrlBuilder None "https://cdn.example.org")))
       = Returned ("https://cdn.example.org" ++ rest)%string.
Proof.
  apply (serverUrl_is_only_a_prefix None "http://example.com"
           "https://cdn.example.org"
           [CsetImagePath "/image.jpg"; Cresize (Int 300) (Int 200)]).
  vm_compute. reflexivity.
Defined.

(** The characters of a signed token before its padding: ASCII letters and
    digits, [-] and [_]. *)
Definition is_token_char (c : ascii) : bool :=
  let n := nat_of_ascii c in
  ((65 <=? n) && (n <=? 90) || (97 <=? n) && (n <=? 122)
   || (48 <=? n) && (n <=? 57) || Ascii.eqb c "-" || Ascii.eqb c "_")%nat.

Lemma base64_char_token (x : Z) :
  is_token_char (url_safe (CryptoJS.base64_char x)) = true.
Proof.
  unfold CryptoJS.base64_char.
  assert (B : 0 <= Z.land x 63 < 64).
  { change 63 with (Z.ones 6). rewrite Z.land_ones by lia.
    apply Z.mod_pos_bound. reflexivity. }
  set (n := Z.to_nat (Z.land x 63)).
  assert (N : (n < 64)%nat) by (unfold n; lia).
  clearbody n.
  do 64 (destruct n as [|n]; [reflexivity|]).
  lia.
Qed.

Lemma token_chars_of_20_bytes (l : list Z) (i : nat) (c : ascii) :
  length l = 20%nat ->
  String.get i (string_map url_safe (CryptoJS.Base64_stringify l)) = Some c ->
  (i < 27 /\ is_token_char c = true)%nat \/ (i = 27%nat /\ c = "="%char).
Proof.
  intros H.
  do 20 (destruct l as [|? l]; [discriminate H|]).
  destruct l; [|discriminate H].
  cbn [CryptoJS.Base64_stringify string_map].
  do 27 (destruct i as [|i]; cbn [String.get];
         [intros [= <-]; left; split; [lia | apply base64_char_token]|]).
  destruct i as [|i]; cbn [String.get].
  - intros [= <-]. right. split; reflexivity.
  - discriminate.
Qed.

Lemma get_below_length (s : string) (i : nat) :
  (i < String.length s)%nat -> exists c, String.get i s = Some c.
Proof.
  revert i. induction s as [|x s IH]; intros i L; cbn in L; [lia|].
  destruct i as [|i]; [now exists x|]. apply IH. lia.
Qed.

(** X11: the token of a signed builder is one URL path segment: exactly 28
    characters, the first 27 taken from the ASCII letters, the digits, [-]
    and [_], the last one [=].  The signer returns such a token whenever
    neither the key nor the text to sign holds an unpaired surrogate. *)
Theorem signed_token_alphabet (this : Builder) (key operation : string) :
  securityKey this = Some key ->
  (WithURIError.Utf8_wellformed key
   && WithURIError.Utf8_wellformed (operation ++ imagePath this) = true ->
   exists token,
     WithURIError.getSecureString operation this = (Returned token, this))
  /\ (forall token : string,
        WithURIError.getSecureString operation this = (Returned token, this) ->
        String.length token = 28%nat
        /\ (forall i : nat,
              (i < 27)%nat ->
              exists c, String.get i token = Some c
                        /\ is_token_char c = true)
        /\ String.get 27 token = Some "="%char).
Proof.
  intros K. rewrite WithURIError_getSecureString_eq.
  unfold signable, signature. rewrite K. split.
  - intros W. rewrite W. eauto.
  - intros token.
    destruct (WithURIError.Utf8_wellformed key
              && WithURIError.Utf8_wellformed (operation ++ imagePath this));
      [|discriminate].
    intros [= <-].
    pose proof (HmacSHA1_length (operation ++ imagePath this) key) as L.
    destruct (Base64_stringify_20 _ L) as [L28 P].
    assert (T28 : String.length
                    (string_map url_safe
                       (CryptoJS.Base64_stringify
                          (CryptoJS.HmacSHA1 (operation ++ imagePath this)
                             key))) = 28%nat)
      by (now rewrite string_map_length).
    split; [exact T28|]. split.
    + intros i I.
      destruct (get_below_length _ i ltac:(rewrite T28; lia)) as [c G].
      exists c. split; [exact G|].
      destruct (token_chars_of_20_bytes _ i c L G) as [[_ C]|[E _]];
        [exact C | lia].
    + rewrite string_map_get, P. reflexivity.
Qed.

Lemma signed_token_alphabet_witness :
  let this :=
    after (CsetImagePath "image10.jpg")
      (example_builder (Some "MY_SECURE_KEY"%string)) in
  WithURIError.getSecureString "300x200/" this
  = (Returned "eAcN_sVLXHbBZN3_A3qmFq-PFRE="%string, this)
  /\ String.length "eAcN_sVLXHbBZN3_A3qmFq-PFRE=" = 28%nat
  /\ String.get 27 "eAcN_sVLXHbBZN3_A3qmFq-PFRE=" = Some "="%char.
Proof.
  intros this.
  assert (G : WithURIError.getSecureString "300x200/" this
              = (Returned "eAcN_sVLXHbBZN3_A3qmFq-PFRE="%string, this))
    by (vm_compute; reflexivity).
  split; [exact G|].
  destruct (proj2 (signed_token_alphabet this "MY_SECURE_KEY" "300x200/"
                     eq_refl) _ G) as (L & _ & P).
  split; [exact L | exact P].
Defined.

(** ** The image path at build time *)

Lemma setImagePath_stored (path : string) (this : Builder) :
  imagePath (after (CsetImagePath path) this) = strip_one_slash path.
Proof.
  unfold after. cbn [invoke snd setImagePath assign set_imagePath imagePath].
  destruct path as [|c rest]; [reflexivity|].
  cbn [charAt String.get strip_one_slash].
  destruct (Ascii.eqb_spec c "/") as [->|N].
  - apply substring_tail.
  - destruct (String.eqb_spec (String c EmptyString) "/") as [Q|Q];
      [|reflexivity].
    injection Q as Q. now elim N.
Qed.

(** X12: right after [setImagePath(path)] the two renderers throw the
    usage error exactly when [path] is the empty string or the single
    character [/].  Whenever [buildUrl] then returns a URL, the URL ends
    with the stored path, [path] less one leading slash; and for every
    other [path] it does return one on a builder without a security
    key. *)
Theorem setImagePath_then_build (path : string) (this : Builder) :
  let this' := after (CsetImagePath path) this in
  (fst (WithURIError.buildUrl this') = Thrown urlParts_error
   <-> path = ""%string \/ path = "/"%string)
  /\ (fst (urlParts this') = Thrown urlParts_error
      <-> path = ""%string \/ path = "/"%string)
  /\ (forall built : string,
        fst (WithURIError.buildUrl this') = Returned built ->
        exists front, built = (front ++ strip_one_slash path)%string)
  /\ (path <> ""%string -> path <> "/"%string -> securityKey this = None ->
      exists front,
        fst (WithURIError.buildUrl this')
        = Returned (front ++ strip_one_slash path)%string).
Proof.
  intros this'.
  assert (I : imagePath this' = strip_one_slash path)
    by apply setImagePath_stored.
  assert (T : string_truthy (imagePath this') = false
              <-> path = ""%string \/ path = "/"%string).
  { rewrite I. destruct path as [|c rest]; cbn [strip_one_slash].
    - cbn. split; [now left | reflexivity].
    - destruct (Ascii.eqb_spec c "/") as [->|N].
      + destruct rest as [|d rest]; cbn [string_truthy].
        * split; [now right | reflexivity].
        * split; [discriminate|]. intros [E|E]; discriminate E.
      + cbn. split; [discriminate|].
        intros [E|E]; [discriminate E|]. injection E as E _. now elim N. }
  assert (B : forall u : string,
             (serverUrl this' ++ "/" ++ u ++ "/" ++ operationPath this'
              ++ imagePath this')%string
             = ((serverUrl this' ++ "/" ++ u ++ "/" ++ operationPath this')
                ++ strip_one_slash path)%string)
    by (intros u; rewrite I; now rewrite !append_assoc).
  split; [|split; [|split]].
  - rewrite WithURIError_buildUrl_eq, <- T.
    unfold WithURIError.URIError, urlParts_error.
    destruct (string_truthy (imagePath this'));
      [destruct (signable this' (operationPath this'))|];
      cbn [fst]; split; intros Q; try discriminate Q; reflexivity.
  - rewrite urlParts_eq, <- T.
    destruct (string_truthy (imagePath this')); cbn [fst];
      split; congruence.
  - intros built. rewrite WithURIError_buildUrl_eq.
    destruct (string_truthy (imagePath this')); [|discriminate].
    destruct (signable this' (operationPath this')); [|discriminate].
    cbn [fst]. intros [= <-]. eexists. apply B.
  - intros N1 N2 K. rewrite WithURIError_buildUrl_eq.
    destruct (string_truthy (imagePath this')) eqn:E.
    + assert (S : signable this' (operationPath this') = true).
      { unfold signable.
        replace (securityKey this') with (securityKey this)
          by (symmetry; apply after_securityKey).
        now rewrite K. }
      rewrite S. cbn [fst]. eexists. f_equal. apply B.
    + destruct (proj1 T eq_refl) as [Q|Q]; contradiction.
Qed.

Lemma setImagePath_then_build_witness :
  exists front,
    fst (WithURIError.buildUrl
           (after (CsetImagePath "/some/image.jpg")
              (new_ThumborUrlBuilder None "http://example.com")))
    = Returned (front ++ strip_one_slash "/some/image.jpg")%string.
Proof.
  apply (setImagePath_then_build "/some/image.jpg"
           (new_ThumborUrlBuilder None "http://example.com"));
    [discriminate | discriminate | reflexivity].
Defined.

(** ** Reading the configuration back from the segments *)

(** [s] holds the letter [x]. *)
Fixpoint has_x (s : string) : bool :=
  match s with
  | EmptyString => false
  | String c rest => Ascii.eqb c "x" || has_x rest
  end.

Lemma has_x_append (a b : string) :
  has_x (a ++ b) = has_x a || has_x b.
Proof.
  induction a as [|c a IH]; cbn [append has_x]; [reflexivity|].
  now rewrite IH, orb_assoc.
Qed.

Lemma In_render (this : Builder) (t : string) :
  In t (render this segment_order)
  <-> exists s, segment_enabled this s = true /\ segment_text this s = t.
Proof.
  unfold render. rewrite in_map_iff. split.
  - intros (s & E & H). apply filter_In in H. exists s. tauto.
  - intros (s & E & H). exists s. split; [exact H|].
    apply filter_In. split; [|exact E].
    unfold segment_order. destruct s; cbn; tauto.
Qed.

(** An equation between a segment text and a token of another kind. *)
Ltac other_text E :=
  first
    [ cbn [append] in E; discriminate E
    | apply (f_equal has_x) in E; rewrite ?has_x_append in E;
      cbn [append has_x Ascii.eqb Bool.eqb orb] in E;
      rewrite ?orb_true_r in E; discriminate E ].

Lemma text_meta (this : Builder) (s : Segment) :
  segment_enabled this s = true -> segment_text this s = "meta"%string ->
  s = Smeta.
Proof.
  destruct s; cbn [segment_enabled segment_text]; intros H E;
    try reflexivity; try (other_text E).
  - destruct (cropValues this); [other_text E | discriminate H].
  - destruct (hAlignValue this) as [[]|]; discriminate.
  - destruct (vAlignValue this) as [[]|]; discriminate.
Qed.

Lemma text_fitIn (this : Builder) (s : Segment) :
  segment_enabled this s = true -> segment_text this s = "fit-in"%string ->
  s = SfitIn.
Proof.
  destruct s; cbn [segment_enabled segment_text]; intros H E;
    try reflexivity; try (other_text E).
  - destruct (cropValues this); [other_text E | discriminate H].
  - destruct (hAlignValue this) as [[]|]; discriminate.
  - destruct (vAlignValue this) as [[]|]; discriminate.
Qed.

Lemma text_smart (this : Builder) (s : Segment) :
  segment_enabled this s = true -> segment_text this s = "smart"%string ->
  s = Ssmart.
Proof.
  destruct s; cbn [segment_enabled segment_text]; intros H E;
    try reflexivity; try (other_text E).
  - destruct (cropValues this); [other_text E | discriminate H].
  - destruct (hAlignValue this) as [[]|]; discriminate.
  - destruct (vAlignValue this) as [[]|]; discriminate.
Qed.

Lemma text_hAlign (this : Builder) (s : Segment) (a : HAlign) :
  segment_enabled this s = true ->
  segment_text this s = HAlign_toString a ->
  hAlignValue this = Some a.
Proof.
  destruct s; cbn [segment_enabled segment_text]; intros H E;
    try (destruct a; other_text E).
  - destruct (cropValues this); [destruct a; other_text E | discriminate H].
  - destruct (hAlignValue this) as [a'|]; [|discriminate H].
    destruct a, a'; try discriminate E; reflexivity.
  - destruct (vAlignValue this) as [[]|]; [| | |discriminate H];
      destruct a; discriminate E.
Qed.

Lemma text_vAlign (this : Builder) (s : Segment) (a : VAlign) :
  segment_enabled this s = true ->
  segment_text this s = VAlign_toString a ->
  vAlignValue this = Some a.
Proof.
  destruct s; cbn [segment_enabled segment_text]; intros H E;
    try (destruct a; other_text E).
  - destruct (cropValues this); [destruct a; other_text E | discriminate H].
  - destruct (hAlignValue this) as [[]|]; [| | |discriminate H];
      destruct a; discriminate E.
  - destruct (vAlignValue this) as [a'|]; [|discriminate H].
    destruct a, a'; try discriminate E; reflexivity.
Qed.

(** X13: the three flag segments can be read back from the result of
    [urlParts]: [meta] is among the segments exactly when [metaDataOnly] was
    called, [fit-in] exactly when the fit-in flag is set, and [smart]
    exactly when smart cropping is on; no other segment can be mistaken for
    one of them. *)
Theorem flag_segments_reflect_flags (this : Builder) (parts : list string) :
  urlParts this = (Returned parts, this) ->
  (In "meta"%string parts <-> meta this = true)
  /\ (In "fit-in"%string parts <-> fitInFlag this = true)
  /\ (In "smart"%string parts <-> smart this = true).
Proof.
  rewrite urlParts_eq.
  destruct (string_truthy (imagePath this)); [|discriminate].
  intros [= <-]. rewrite !In_render. split; [|split]; split.
  - intros (s & H & E). now rewrite (text_meta this s H E) in H.
  - intros H. now exists Smeta.
  - intros (s & H & E). now rewrite (text_fitIn this s H E) in H.
  - intros H. now exists SfitIn.
  - intros (s & H & E). now rewrite (text_smart this s H E) in H.
  - intros H. now exists Ssmart.
Qed.

Lemma flag_segments_reflect_flags_witness :
  let this :=
    after_all [CsetImagePath "a.png"; CsmartCrop true; CsmartCrop false;
               CmetaDataOnly; Cfilter "smart"]
      (new_ThumborUrlBuilder None "http://example.com") in
  (In "meta"%string ["meta"; "filters:smart"]%string <-> meta this = true)
  /\ (In "fit-in"%string ["meta"; "filters:smart"]%string
      <-> fitInFlag this = true)
  /\ (In "smart"%string ["meta"; "filters:smart"]%string
      <-> smart this = true).
Proof.
  intros this.
  apply (flag_segments_reflect_flags this).
  vm_compute. reflexivity.
Defined.

(** X14: the alignment segments can be read back likewise: the token of a
    horizontal (vertical) alignment is among the segments exactly when it is
    the stored horizontal (vertical) alignment. *)
Theorem alignment_segments_reflect_alignments
    (this : Builder) (parts : list string) :
  urlParts this = (Returned parts, this) ->
  (forall a : HAlign,
     In (HAlign_toString a) parts <-> hAlignValue this = Some a)
  /\ (forall a : VAlign,
        In (VAlign_toString a) parts <-> vAlignValue this = Some a).
Proof.
  rewrite urlParts_eq.
  destruct (string_truthy (imagePath this)); [|discriminate].
  intros [= <-]. split; intros a; rewrite In_render; split.
  - intros (s & H & E). exact (text_hAlign this s a H E).
  - intros H. exists ShAlign. cbn [segment_enabled segment_text].
    now rewrite H.
  - intros (s & H & E). exact (text_vAlign this s a H E).
  - intros H. exists SvAlign. cbn [segment_enabled segment_text].
    now rewrite H.
Qed.

Lemma alignment_segments_reflect_alignments_witness :
  let this :=
    after_all [CsetImagePath "a.png"; ChAlign HAlign_left;
               ChAlign HAlign_right; CvAlign VAlign_middle]
      (new_ThumborUrlBuilder None "http://example.com") in
  (In "right"%string ["right"; "middle"]%string
   <-> hAlignValue this = Some HAlign_right)
  /\ (In "left"%string ["right"; "middle"]%string
      <-> hAlignValue this = Some HAlign_left).
Proof.
  intros this.
  destruct (alignment_segments_reflect_alignments this
              ["right"; "middle"]%string) as [H _].
  - vm_compute. reflexivity.
  - split; [exact (H HAlign_right) | exact (H HAlign_left)].
Defined.

(** ** The layout of the URL *)

(** X15: in a signed URL the token authenticates exactly what follows it:
    the URL is the server URL, [/], the token, [/] and a text [signed], and
    the token is the URL-safe Base64 encoding of the HMAC-SHA1 digest of
    that same [signed] under the key; [signed] is the operation path
    followed by the image path. *)
Theorem signature_covers_rest_of_url
    (this : Builder) (key built : string) (parts : list string) :
  securityKey this = Some key ->
  urlParts this = (Returned parts, this) ->
  buildUrl this = (Returned built, this) ->
  let signed :=
    (String.concat "" (map (fun s => s ++ "/")%string parts)
     ++ imagePath this)%string in
  built
  = (serverUrl this ++ "/"
     ++ replace_g "/" "_"
          (replace_g "+" "-"
             (CryptoJS.Base64_stringify (CryptoJS.HmacSHA1 signed key)))
     ++ "/" ++ signed)%string.
Proof.
  intros K. rewrite urlParts_eq, buildUrl_eq.
  destruct (string_truthy (imagePath this)); [|discriminate].
  intros [= <-] [= <-]. cbv zeta.
  assert (O : operationPath this
              = String.concat ""
                  (map (fun s => s ++ "/")%string (render this segment_order))).
  { unfold operationPath.
    destruct (render this segment_order) as [|p parts]; [reflexivity|].
    apply join_slash_concat. }
  rewrite <- O. unfold signature. rewrite K, replace_g_url_safe.
  reflexivity.
Qed.

Lemma signature_covers_rest_of_url_witness :
  "http://example.com/eAcN_sVLXHbBZN3_A3qmFq-PFRE=/300x200/image10.jpg"%string
  = ("http://example.com" ++ "/"
     ++ replace_g "/" "_"
          (replace_g "+" "-"
             (CryptoJS.Base64_stringify
                (CryptoJS.HmacSHA1 "300x200/image10.jpg" "MY_SECURE_KEY")))
     ++ "/" ++ "300x200/image10.jpg")%string.
Proof.
  apply (signature_covers_rest_of_url
           (after (CsetImagePath "image10.jpg")
              (example_builder (Some "MY_SECURE_KEY"%string)))
           "MY_SECURE_KEY"
           "http://example.com/eAcN_sVLXHbBZN3_A3qmFq-PFRE=/300x200/image10.jpg"
           ["300x200"%string]).
  - reflexivity.
  - vm_compute. reflexivity.
  - vm_compute. reflexivity.
Defined.

(** X16: a freshly constructed builder has no operation switched on.  With
    nothing but an image path set, [urlParts] returns no segment, the
    operation path is empty, and without a key the URL is the server URL,
    [/unsafe/] and the stored path. *)
Theorem fresh_builder_renders_no_operation
    (key : option string) (url path : string) :
  path <> ""%string -> path <> "/"%string ->
  let this := after (CsetImagePath path) (new_ThumborUrlBuilder key url) in
  urlParts this = (Returned [], this)
  /\ getOperationPath this = (Returned ""%string, this)
  /\ (key = None ->
      buildUrl this
      = (Returned (url ++ "/unsafe/" ++ strip_one_slash path)%string, this)).
Proof.
  intros N1 N2 this.
  assert (I : imagePath this = strip_one_slash path)
    by apply setImagePath_stored.
  assert (T : string_truthy (imagePath this) = true).
  { rewrite I. destruct path as [|c rest]; [now elim N1|].
    cbn [strip_one_slash].
    destruct (Ascii.eqb_spec c "/") as [->|_]; [|reflexivity].
    destruct rest; [now elim N2 | reflexivity]. }
  assert (R : render this segment_order = []) by reflexivity.
  assert (O : operationPath this = ""%string)
    by (unfold operationPath; now rewrite R).
  split; [|split].
  - now rewrite urlParts_eq, T, R.
  - now rewrite getOperationPath_eq, T, O.
  - intros ->. rewrite buildUrl_eq, T, O, I. reflexivity.
Qed.

Lemma fresh_builder_renders_no_operation_witness :
  let this :=
    after (CsetImagePath "/image.jpg")
      (new_ThumborUrlBuilder None "http://example.com") in
  buildUrl this
  = (Returned
       ("http://example.com" ++ "/unsafe/"
        ++ strip_one_slash "/image.jpg")%string, this).
Proof.
  intros this.
  apply (fresh_builder_renders_no_operation None "http://example.com"
           "/image.jpg"); [discriminate | discriminate | reflexivity].
Defined.

(** X17: zero and [NaN] count as no dimension.  When width and height are
    both falsy and no flip is set, [urlParts] has no size segment at all,
    even after [fitIn]: the segments are those of the other seven kinds. *)
Theorem size_segment_omitted_when_falsy (this : Builder) :
  imagePath this <> ""%string ->
  number_truthy (width this) = false ->
  number_truthy (height this) = false ->
  flipHorizontally this = false ->
  flipVertically this = false ->
  fst (urlParts this)
  = Returned
      (render this [Smeta; Scrop; SfitIn]
       ++ render this [ShAlign; SvAlign; Ssmart; Sfilters]).
Proof.
  intros NE W H FH FV. rewrite urlParts_eq.
  apply string_truthy_true in NE. rewrite NE. cbn [fst]. f_equal.
  assert (E : segment_enabled this Ssize = false)
    by (cbn [segment_enabled]; now rewrite W, H, FH, FV).
  unfold render.
  change segment_order
    with ([Smeta; Scrop; SfitIn]
            ++ Ssize :: [ShAlign; SvAlign; Ssmart; Sfilters]).
  rewrite filter_app, map_app. f_equal.
  change (Ssize :: [ShAlign; SvAlign; Ssmart; Sfilters])
    with ([Ssize] ++ [ShAlign; SvAlign; Ssmart; Sfilters]).
  rewrite filter_app. cbn [List.filter]. now rewrite E.
Qed.

Lemma size_segment_omitted_when_falsy_witness :
  fst (buildUrl
         (after_all [CsetImagePath "a.png"; CfitIn (Int 0) NaN]
            (new_ThumborUrlBuilder None "http://example.com")))
  = Returned "http://example.com/unsafe/fit-in/a.png"%string
  /\ fst (urlParts
            (after_all [CsetImagePath "a.png"; CfitIn (Int 0) NaN]
               (new_ThumborUrlBuilder None "http://example.com")))
     = Returned ["fit-in"%string].
Proof.
  split; [reflexivity|].
  rewrite (size_segment_omitted_when_falsy
             (after_all [CsetImagePath "a.png"; CfitIn (Int 0) NaN]
                (new_ThumborUrlBuilder None "http://example.com")));
    [reflexivity | discriminate | reflexivity ..].
Defined.
